(** * Verification of minecraft-log-reader (src/main.py)

    A shallow embedding of [main.py]: the compiled patterns, Python's
    backtracking [re] matcher on them ([match], [fullmatch], [findall]),
    the if/elif classification chain of the entry loop, [date.fromisoformat],
    [time.fromisoformat], [datetime.combine], the CSV export, and [main] as a
    state-and-exception computation over a small model of the file system.

    Text is ASCII, as [list ascii]: Python [str] restricted to ASCII, on which
    [\d] is [0-9] and [\w] is [A-Za-z0-9_]. *)

From Stdlib Require Import Ascii String List Arith Lia Bool Sorting.Sorted Sorting.Permutation.
From stdpp Require Import base gmap strings list.
Import ListNotations.

Open Scope list_scope.

Abbreviation str := (list ascii).

(** String literals, written as Rocq strings, as text. *)
Definition L (s : string) : str := list_ascii_of_string s.

Definition nl : ascii := Ascii.ascii_of_nat 10.
Definition cr : ascii := Ascii.ascii_of_nat 13.
Definition dquote : ascii := Ascii.ascii_of_nat 34.

Definition ascii_eqb (a b : ascii) : bool := if ascii_dec a b then true else false.

(** [\d] *)
Definition is_digit (c : ascii) : bool :=
  let n := nat_of_ascii c in (48 <=? n) && (n <=? 57).

(** [\w] *)
Definition is_word (c : ascii) : bool :=
  let n := nat_of_ascii c in
  ((48 <=? n) && (n <=? 57)) || ((65 <=? n) && (n <=? 90))
  || ((97 <=? n) && (n <=? 122)) || (n =? 95).

(** [.] (no DOTALL flag): any character but a newline. *)
Definition not_newline (c : ascii) : bool := negb (ascii_eqb c nl).

(** [[^\]]] *)
Definition not_rbracket (c : ascii) : bool := negb (ascii_eqb c "]"%char).

(** ** Regular expressions and Python's backtracking matcher *)

Module Re.

Inductive regex : Type :=
| RLit (w : str)                                        (* a run of literal characters *)
| RClass (p : ascii -> bool) (lo : nat) (hi : option nat)  (* [p{lo,hi}], greedy *)
| RSeq (r1 r2 : regex)
| RAlt (r1 r2 : regex)                                  (* [r1|r2], left first *)
| RGroup (name : str) (r : regex).                      (* capture group *)

(** Captures, newest first. *)
Definition caps := list (str * str).

Fixpoint prefixb (w s : str) : bool :=
  match w, s with
  | [], _ => true
  | c :: w', d :: s' => ascii_eqb c d && prefixb w' s'
  | _ :: _, [] => false
  end.

(** Number of leading characters of [s] in the class, at most [hi]. *)
Fixpoint take_count (p : ascii -> bool) (hi : option nat) (s : str) : nat :=
  match s with
  | [] => 0
  | c :: t =>
      match hi with
      | Some 0 => 0
      | Some (S h) => if p c then S (take_count p (Some h) t) else 0
      | None => if p c then S (take_count p None t) else 0
      end
  end.

(** Backtracking over the repetition counts [n, n-1, ..., lo]. *)
Fixpoint first_some_down {A} (f : nat -> option A) (lo n : nat) : option A :=
  match f n with
  | Some x => Some x
  | None => match n with
            | 0 => None
            | S m => if lo <=? m then first_some_down f lo m else None
            end
  end.

(** [mt r s c k]: match [r] at the start of [s], then run the continuation
    [k] on the remaining input and the captures; the first success in
    backtracking order wins, as in [sre]. *)
Fixpoint mt {A} (r : regex) (s : str) (c : caps) (k : str -> caps -> option A)
  : option A :=
  match r with
  | RLit w => if prefixb w s then k (skipn (length w) s) c else None
  | RClass p lo hi =>
      let n := take_count p hi s in
      if n <? lo then None else first_some_down (fun i => k (skipn i s) c) lo n
  | RSeq r1 r2 => mt r1 s c (fun s' c' => mt r2 s' c' k)
  | RAlt r1 r2 =>
      match mt r1 s c k with
      | Some x => Some x
      | None => mt r2 s c k
      end
  | RGroup n r1 =>
      mt r1 s c (fun s' c' => k s' ((n, firstn (length s - length s') s) :: c'))
  end.

(** [pattern.match(s)]: anchored at the start; the remaining input and the
    captures. *)
Definition re_match (r : regex) (s : str) : option (str * caps) :=
  mt r s [] (fun s' c => Some (s', c)).

(** [pattern.fullmatch(s)] *)
Definition re_fullmatch (r : regex) (s : str) : option caps :=
  mt r s [] (fun s' c => match s' with [] => Some c | _ => None end).

(** [m.group(name)]; [''] when the group did not take part. *)
Fixpoint group (name : str) (c : caps) : str :=
  match c with
  | [] => []
  | (n, v) :: c' => if decide (n = name) then v else group name c'
  end.

(** [pattern.findall(s)] for a pattern with one group: scan the positions
    left to right, and after a match go on where it ended.  A match that
    consumes nothing advances by one character. *)
Fixpoint findall_go (r : regex) (fuel : nat) (s : str) : list str :=
  match fuel with
  | 0 => []
  | S f =>
      match re_match r s with
      | Some (s', c) =>
          if length s' <? length s then group (L "1") c :: findall_go r f s'
          else group (L "1") c :: match s with [] => [] | _ :: t => findall_go r f t end
      | None => match s with [] => [] | _ :: t => findall_go r f t end
      end
  end.

Definition findall (r : regex) (s : str) : list str := findall_go r (S (length s)) s.

Fixpoint seqs (rs : list regex) : regex :=
  match rs with
  | [] => RLit []
  | [r] => r
  | r :: rs' => RSeq r (seqs rs')
  end.

End Re.

Import Re.

(** ** The compiled patterns of main.py *)

Definition lit (s : string) : regex := RLit (L s).
Definition digits (n : nat) : regex := RClass is_digit n (Some n).
Definition any1 : regex := RClass not_newline 1 (Some 1).
Definition dotstar : regex := RClass not_newline 0 None.

(** [(?P<date>\d{4}\-\d{2}-\d{2})-\d+\.log\.gz] *)
Definition LOG_FILENAME_FORMAT : regex :=
  seqs [RGroup (L "date") (seqs [digits 4; lit "-"; digits 2; lit "-"; digits 2]);
        lit "-"; RClass is_digit 1 None; lit ".log.gz"].

(** A newline, then group 1: [\[\d{2}:\d{2}:\d{2}\] .*] (the source writes
    the group in parentheses after the [\n]). *)
Definition LOG_ENTRY_FORMAT : regex :=
  RSeq (RLit [nl])
       (RGroup (L "1") (seqs [lit "["; digits 2; lit ":"; digits 2; lit ":"; digits 2;
                              lit "] "; dotstar])).

(** The common head of the five entry patterns:
    [\[(?P<time>\d{2}:\d{2}:\d{2})\] \[Server thread\/INFO\]
     \[net.minecraft.server.dedicated.DedicatedServer\]: ]
    (the unescaped dots match any character but a newline). *)
Definition SERVER_PREFIX : regex :=
  seqs [lit "[";
        RGroup (L "time") (seqs [digits 2; lit ":"; digits 2; lit ":"; digits 2]);
        lit "] [Server thread/INFO] [net"; any1; lit "minecraft"; any1; lit "server";
        any1; lit "dedicated"; any1; lit "DedicatedServer]: "].

(** [(?P<player>\w{1,16})] *)
Definition PLAYER : regex := RGroup (L "player") (RClass is_word 1 (Some 16)).

Definition JOIN_FORMAT : regex :=
  RSeq SERVER_PREFIX (RSeq PLAYER (lit " joined the game")).

Definition LEAVE_FORMAT : regex :=
  RSeq SERVER_PREFIX (RSeq PLAYER (lit " left the game")).

Definition ADVANCEMENT_FORMAT : regex :=
  RSeq SERVER_PREFIX
    (seqs [PLAYER; lit " has ";
           RGroup (L "type") (RAlt (lit "made the advancement")
                               (RAlt (lit "completed the challenge") (lit "reached the goal")));
           lit " [";
           RGroup (L "advancement") (RClass not_rbracket 1 None);
           lit "]"]).

Definition DEATH_FORMAT : regex :=
  RSeq SERVER_PREFIX (seqs [PLAYER; lit " "; RGroup (L "cause") dotstar]).

Definition MESSAGE_FORMAT : regex :=
  RSeq SERVER_PREFIX (seqs [lit "<"; PLAYER; lit "> "; RGroup (L "message") dotstar]).

Definition NOT_PLAYERS : list str :=
  map L ["Starting"; "Loading"; "Default"; "Generating"; "Preparing"; "Done";
         "Successfully"; "Saved"; "Stopping"; "There"; "Added"; "You"; "Unknown";
         "Config"; "Use"]%string.

(** ** Results of fallible code: Python exceptions *)

Inductive exn : Type :=
| ValueError
| TypeError
| FileNotFoundError.

Inductive result (A : Type) : Type :=
| Ok (a : A)
| Err (e : exn).
Arguments Ok {A} a.
Arguments Err {A} e.

Global Instance result_ret : MRet result := fun A a => Ok a.
Global Instance result_bind : MBind result := fun A B f r =>
  match r with Ok a => f a | Err e => Err e end.

(** ** [datetime]: dates, times and their ISO parsers *)

Record date : Type := mkdate { year : nat; month : nat; day : nat }.
Record time : Type := mktime { hour : nat; minute : nat; second : nat }.
Record datetime : Type := mkdatetime { dt_date : date; dt_time : time }.

(** [datetime.combine(d, t)] *)
Definition combine (d : date) (t : time) : datetime := mkdatetime d t.

Definition digit_val (c : ascii) : nat := nat_of_ascii c - 48.

(** The value of a run of decimal digits. *)
Fixpoint digits_val (s : str) : nat :=
  match s with
  | [] => 0
  | c :: t => digit_val c * 10 ^ length t + digits_val t
  end.

Definition is_leap (y : nat) : bool :=
  (y mod 4 =? 0) && (negb (y mod 100 =? 0) || (y mod 400 =? 0)).

Definition days_in_month (y m : nat) : nat :=
  match m with
  | 2 => if is_leap y then 29 else 28
  | 4 | 6 | 9 | 11 => 30
  | _ => 31
  end.

(** [date.fromisoformat(s)] on the text the filename pattern captures,
    [dddd-dd-dd]; [ValueError] outside [MINYEAR..MAXYEAR], months [1..12] and
    the days of the month.  (The other ISO shapes Python accepts are never
    passed here: the capture group admits only this one.) *)
Definition date_fromisoformat (s : str) : result date :=
  match s with
  | [y1; y2; y3; y4; c1; m1; m2; c2; d1; d2] =>
      if forallb is_digit [y1; y2; y3; y4; m1; m2; d1; d2]
         && ascii_eqb c1 "-" && ascii_eqb c2 "-" then
        let y := digits_val [y1; y2; y3; y4] in
        let m := digits_val [m1; m2] in
        let d := digits_val [d1; d2] in
        if (1 <=? y) && (y <=? 9999) && (1 <=? m) && (m <=? 12)
           && (1 <=? d) && (d <=? days_in_month y m)
        then Ok (mkdate y m d) else Err ValueError
      else Err ValueError
  | _ => Err ValueError
  end.

(** [time.fromisoformat(s)] on the text the entry patterns capture,
    [dd:dd:dd]; [ValueError] unless hour < 24, minute < 60, second < 60. *)
Definition time_fromisoformat (s : str) : result time :=
  match s with
  | [h1; h2; c1; m1; m2; c2; s1; s2] =>
      if forallb is_digit [h1; h2; m1; m2; s1; s2]
         && ascii_eqb c1 ":" && ascii_eqb c2 ":" then
        let h := digits_val [h1; h2] in
        let m := digits_val [m1; m2] in
        let sec := digits_val [s1; s2] in
        if (h <? 24) && (m <? 60) && (sec <? 60) then Ok (mktime h m sec)
        else Err ValueError
      else Err ValueError
  | _ => Err ValueError
  end.

(** ** Events: the four namedtuples *)

Inductive event : Type :=
| PlayerJoinLeave (time : datetime) (player : str) (type : str)
| PlayerAdvancement (time : datetime) (player : str) (advancement : str)
| PlayerDeath (time : datetime) (player : str) (cause : str)
| PlayerMessage (time : datetime) (player : str) (message : str).

Definition ev_time (e : event) : datetime :=
  match e with
  | PlayerJoinLeave t _ _ | PlayerAdvancement t _ _
  | PlayerDeath t _ _ | PlayerMessage t _ _ => t
  end.

Definition ev_date (e : event) : date := dt_date (ev_time e).

Definition member (x : str) (l : list str) : bool :=
  existsb (fun y => if decide (x = y) then true else false) l.

(** ** Classification: the body of [for entry in log_entries] (lines 70-119).
    [Ok None] is an entry that adds nothing (no pattern, or the [continue]
    of the denylist); [Err] is an exception escaping the loop. *)
Definition classify (entry : str) (log_date : date) : result (option event) :=
  match re_match JOIN_FORMAT entry with
  | Some (_, m) =>
      t ← time_fromisoformat (group (L "time") m);
      Ok (Some (PlayerJoinLeave (combine log_date t) (group (L "player") m) (L "join")))
  | None =>
  match re_match LEAVE_FORMAT entry with
  | Some (_, m) =>
      t ← time_fromisoformat (group (L "time") m);
      Ok (Some (PlayerJoinLeave (combine log_date t) (group (L "player") m) (L "leave")))
  | None =>
  match re_match ADVANCEMENT_FORMAT entry with
  | Some (_, m) =>
      t ← time_fromisoformat (group (L "time") m);
      Ok (Some (PlayerAdvancement (combine log_date t) (group (L "player") m)
                                  (group (L "advancement") m)))
  | None =>
  match re_match DEATH_FORMAT entry with
  | Some (_, m) =>
      let player := group (L "player") m in
      if member player NOT_PLAYERS then Ok None
      else
        t ← time_fromisoformat (group (L "time") m);
        Ok (Some (PlayerDeath (combine log_date t) player (group (L "cause") m)))
  | None =>
  match re_match MESSAGE_FORMAT entry with
  | Some (_, m) =>
      t ← time_fromisoformat (group (L "time") m);
      Ok (Some (PlayerMessage (combine log_date t) (group (L "player") m)
                              (group (L "message") m)))
  | None => Ok None
  end end end end end.

(** The entry loop, appending to [event_stream]. *)
Fixpoint process_entries (log_date : date) (entries : list str) (stream : list event)
  : result (list event) :=
  match entries with
  | [] => Ok stream
  | e :: es =>
      match classify e log_date with
      | Err x => Err x
      | Ok None => process_entries log_date es stream
      | Ok (Some ev) => process_entries log_date es (stream ++ [ev])
      end
  end.

(** ** CSV export *)

Inductive etype : Type := TJoinLeave | TAdvancement | TDeath | TMessage.

Global Instance etype_eq_dec : EqDecision etype.
Proof. solve_decision. Defined.

(** [type(r)] *)
Definition type_of (e : event) : etype :=
  match e with
  | PlayerJoinLeave _ _ _ => TJoinLeave
  | PlayerAdvancement _ _ _ => TAdvancement
  | PlayerDeath _ _ _ => TDeath
  | PlayerMessage _ _ _ => TMessage
  end.

(** [entry_type._fields] *)
Definition fields (t : etype) : list str :=
  match t with
  | TJoinLeave => map L ["time"; "player"; "type"]%string
  | TAdvancement => map L ["time"; "player"; "advancement"]%string
  | TDeath => map L ["time"; "player"; "cause"]%string
  | TMessage => map L ["time"; "player"; "message"]%string
  end.

Definition digit_char (n : nat) : ascii := ascii_of_nat (48 + n).

(** [n] in decimal, zero-padded to [w] digits. *)
Fixpoint pad (w n : nat) : str :=
  match w with
  | 0 => []
  | S w' => pad w' (n / 10) ++ [digit_char (n mod 10)]
  end.

(** [str(datetime)]: [YYYY-MM-DD HH:MM:SS] (microsecond 0). *)
Definition str_datetime (t : datetime) : str :=
  let d := dt_date t in let c := dt_time t in
  pad 4 (year d) ++ L "-" ++ pad 2 (month d) ++ L "-" ++ pad 2 (day d) ++ L " "
  ++ pad 2 (hour c) ++ L ":" ++ pad 2 (minute c) ++ L ":" ++ pad 2 (second c).

(** The fields of a namedtuple row, as [csv.writer] stringifies them. *)
Definition row (e : event) : list str :=
  match e with
  | PlayerJoinLeave t p x | PlayerAdvancement t p x
  | PlayerDeath t p x | PlayerMessage t p x => [str_datetime t; p; x]
  end.

(** [csv.writer] with the default dialect: [QUOTE_MINIMAL] quotes a field
    holding a comma, a double quote, CR or LF, doubling its quotes; rows end
    in CR LF.  (Every row here has three fields.) *)
Definition needs_quote (f : str) : bool :=
  existsb (fun c => ascii_eqb c "," || ascii_eqb c dquote || ascii_eqb c cr
                    || ascii_eqb c nl) f.

Definition quote_field (f : str) : str :=
  if needs_quote f then
    [dquote] ++ flat_map (fun c => if ascii_eqb c dquote then [dquote; dquote] else [c]) f
    ++ [dquote]
  else f.

Fixpoint join_comma (fs : list str) : str :=
  match fs with
  | [] => []
  | [f] => quote_field f
  | f :: fs' => quote_field f ++ L "," ++ join_comma fs'
  end.

Definition writerow (fs : list str) : str := join_comma fs ++ [cr; nl].

(** What one CSV file holds after [writerow(_fields)] and [writerows]. *)
Definition csv_text (t : etype) (stream : list event) : str :=
  writerow (fields t)
  ++ concat (map (fun e => writerow (row e))
                 (filter (fun e => type_of e = t) stream)).

Definition CSV_FILES : list (str * etype) :=
  [(L "joins_leaves.csv", TJoinLeave); (L "advancements.csv", TAdvancement);
   (L "deaths.csv", TDeath); (L "messages.csv", TMessage)].

(** ** The file system and [main] *)

(** [LOG_DIRECTORY] is the environment variable, read at import.
    [os.listdir(None)] lists the working directory ([cwd_listing]);
    [dirs] maps a directory path to its files, each with its decompressed,
    decoded text.  [output] is the [output] directory: whether it exists, and
    its files. *)
Record World : Type := mkWorld {
  LOG_DIRECTORY : option str;
  cwd_listing : list str;
  dirs : list (str * list (str * str));
  output_exists : bool;
  output : gmap str str
}.

Definition M (A : Type) : Type := World -> result A * World.

Global Instance M_ret : MRet M := fun A a w => (Ok a, w).
Global Instance M_bind : MBind M := fun A B f m w =>
  match m w with
  | (Ok a, w') => f a w'
  | (Err e, w') => (Err e, w')
  end.

Definition lift {A} (r : result A) : M A := fun w => (r, w).
Definition raise {A} (e : exn) : M A := fun w => (Err e, w).
Definition get : M World := fun w => (Ok w, w).

Fixpoint assoc {V} (k : str) (l : list (str * V)) : option V :=
  match l with
  | [] => None
  | (k', v) :: l' => if decide (k = k') then Some v else assoc k l'
  end.

(** [os.listdir(path)] *)
Definition listdir (path : option str) : M (list str) := fun w =>
  match path with
  | None => (Ok (cwd_listing w), w)
  | Some d =>
      match assoc d (dirs w) with
      | Some fs => (Ok (map fst fs), w)
      | None => (Err FileNotFoundError, w)
      end
  end.

(** [gzip.open(os.path.join(path, filename)).read().decode('utf-8')];
    [os.path.join(None, _)] raises [TypeError]. *)
Definition read_log (path : option str) (filename : str) : M str := fun w =>
  match path with
  | None => (Err TypeError, w)
  | Some d =>
      match assoc d (dirs w) with
      | Some fs =>
          match assoc filename fs with
          | Some text => (Ok text, w)
          | None => (Err FileNotFoundError, w)
          end
      | None => (Err FileNotFoundError, w)
      end
  end.

(** [if not os.path.exists('output'): os.mkdir('output')]: when it does not
    exist, the directory is created and appears in the working directory's
    listing.  The log directories in [dirs] are taken to be other
    directories than the working directory and [output]. *)
Definition mkdir_output : M unit := fun w =>
  if output_exists w then (Ok tt, w)
  else (Ok tt, mkWorld (LOG_DIRECTORY w) (cwd_listing w ++ [L "output"]) (dirs w) true
                       (output w)).

(** [open(os.path.join('output', filename), 'w')] and write: the file is
    replaced by [text].  Opening and writing are modelled as succeeding; a
    failure of either (permissions, a directory in the way, a full disk) is
    outside the model, so what is proved about exports holds of runs whose
    writes succeed. *)
Definition write_output (filename text : str) : M unit := fun w =>
  (Ok tt, mkWorld (LOG_DIRECTORY w) (cwd_listing w) (dirs w) (output_exists w)
                  (<[filename := text]> (output w))).

Fixpoint write_csv_files (files : list (str * etype)) (stream : list event) : M unit :=
  match files with
  | [] => mret tt
  | (filename, t) :: fs => write_output filename (csv_text t stream);; write_csv_files fs stream
  end.

(** Lines 122-136. *)
Definition write_csvs (stream : list event) : M unit :=
  mkdir_output;; write_csv_files CSV_FILES stream.

(** Python's [<] on [str]: lexicographic on code points. *)
Fixpoint str_ltb (a b : str) : bool :=
  match a, b with
  | _, [] => false
  | [], _ :: _ => true
  | x :: a', y :: b' =>
      (nat_of_ascii x <? nat_of_ascii y)
      || ((nat_of_ascii x =? nat_of_ascii y) && str_ltb a' b')
  end.

Fixpoint insert_sorted (x : str) (l : list str) : list str :=
  match l with
  | [] => [x]
  | y :: l' => if str_ltb x y then x :: l else y :: insert_sorted x l'
  end.

(** [sorted(...)] *)
Fixpoint sort (l : list str) : list str :=
  match l with
  | [] => []
  | x :: l' => insert_sorted x (sort l')
  end.

Definition is_log_file (x : str) : bool :=
  match re_fullmatch LOG_FILENAME_FORMAT x with Some _ => true | None => false end.

(** [LOG_FILENAME_FORMAT.fullmatch(filename).group('date')] *)
Definition file_date_text (filename : str) : str :=
  match re_fullmatch LOG_FILENAME_FORMAT filename with
  | Some c => group (L "date") c
  | None => []
  end.

(** The body of [for filename in log_files] (lines 64-136). *)
Fixpoint process_files (path : option str) (log_files : list str) (stream : list event)
  : M (list event) :=
  match log_files with
  | [] => mret stream
  | filename :: fs =>
      log_date ← lift (date_fromisoformat (file_date_text filename));
      log ← read_log path filename;
      stream' ← lift (process_entries log_date (findall LOG_ENTRY_FORMAT log) stream);
      write_csvs stream';;
      process_files path fs stream'
  end.

(** [main()]; its result is the final [event_stream]. *)
Definition main : M (list event) :=
  w ← get;
  files ← listdir (LOG_DIRECTORY w);
  process_files (LOG_DIRECTORY w) (sort (List.filter is_log_file files)) [].


(** ** Analysis of the matcher: fixed-width regexes and group names *)

(** Regexes that always consume the same number of characters, and their
    deterministic run. *)
Fixpoint fixed (r : regex) : bool :=
  match r with
  | RLit _ => true
  | RClass _ lo (Some hi) => lo =? hi
  | RClass _ _ None => false
  | RSeq a b => fixed a && fixed b
  | RAlt _ _ => false
  | RGroup _ a => fixed a
  end.

Fixpoint width (r : regex) : nat :=
  match r with
  | RLit w => length w
  | RClass _ n _ => n
  | RSeq a b => width a + width b
  | RAlt _ _ => 0
  | RGroup _ a => width a
  end.

Fixpoint run_fixed (r : regex) (s : str) (c : caps) : option (str * caps) :=
  match r with
  | RLit w => if prefixb w s then Some (skipn (length w) s, c) else None
  | RClass p n _ =>
      if (n <=? length s) && forallb p (firstn n s) then Some (skipn n s, c) else None
  | RSeq a b =>
      match run_fixed a s c with Some (s', c') => run_fixed b s' c' | None => None end
  | RAlt _ _ => None
  | RGroup nm a =>
      match run_fixed a s c with
      | Some (s', c') => Some (s', (nm, firstn (length s - length s') s) :: c')
      | None => None
      end
  end.

(** The names of the groups of a regex. *)
Fixpoint names (r : regex) : list str :=
  match r with
  | RLit _ | RClass _ _ _ => []
  | RSeq a b | RAlt a b => names a ++ names b
  | RGroup nm a => nm :: names a
  end.

Definition srv (msg : string) : str :=
  L "[14:22:01] [Server thread/INFO] [net.minecraft.server.dedicated.DedicatedServer]: " ++ L msg.

Definition d20240305 : date := mkdate 2024 3 5.

Definition w_ex : World :=
  mkWorld (Some (L "logs")) []
    [(L "logs", [(L "2024-01-02-1.log.gz", [nl] ++ srv "Alex joined the game");
                 (L "notes.txt", []);
                 (L "2024-01-01-1.log.gz", [nl] ++ srv "Steve joined the game")])]
    false ∅.

(** ** Inputs named in the statements *)

(** The fixed text between the time and the message of a server line. *)
Definition HEAD : str :=
  L "] [Server thread/INFO] [net.minecraft.server.dedicated.DedicatedServer]: ".

(** The characters the [time] group of the entry patterns spans: 1 to 8. *)
Definition time_field (entry : str) : str := firstn 8 (skipn 1 entry).

(** [HH:MM:SS] for a time of day. *)
Definition time_text (h m s : nat) : str :=
  pad 2 h ++ L ":" ++ pad 2 m ++ L ":" ++ pad 2 s.

(** A well-formed join line: [[HH:MM:SS] [Server thread/INFO] [...]: P joined the game]. *)
Definition join_line (h m s : nat) (player : str) : str :=
  L "[" ++ time_text h m s ++ HEAD ++ player ++ L " joined the game".

(** [str.split('\n')]: the physical lines of a text. *)
Fixpoint split_lines (s : str) : list str :=
  match s with
  | [] => [[]]
  | c :: t =>
      if ascii_eqb c nl then [] :: split_lines t
      else match split_lines t with
           | [] => [[c]]
           | l :: ls => (c :: l) :: ls
           end
  end.

(** The entry marker [[HH:MM:SS] ], character by character. *)
Definition marker_tpl : list (ascii -> bool) :=
  [ascii_eqb "["; is_digit; is_digit; ascii_eqb ":"; is_digit; is_digit;
   ascii_eqb ":"; is_digit; is_digit; ascii_eqb "]"; ascii_eqb " "]%char.

Fixpoint check_tpl (tpl : list (ascii -> bool)) (s : str) : bool :=
  match tpl, s with
  | [], _ => true
  | p :: tpl', c :: s' => p c && check_tpl tpl' s'
  | _ :: _, [] => false
  end.

(** A line that begins with the entry marker. *)
Definition is_marked (line : str) : bool := check_tpl marker_tpl line.

(** The fixed part of group 1 of [LOG_ENTRY_FORMAT], before its [.*]. *)
Definition ENTRY_MARKER : regex :=
  seqs [lit "["; digits 2; lit ":"; digits 2; lit ":"; digits 2; lit "] "].

(** Calendar order on dates: by year, then month, then day. *)
Definition date_lt (a b : date) : Prop :=
  year a < year b \/
  (year a = year b /\ (month a < month b \/ (month a = month b /\ day a < day b))).

(** [LOG_DIRECTORY] unset, and nothing in the working directory. *)
Definition w_unset : World := mkWorld None [] [] false ∅.

(** [LOG_DIRECTORY] unset; the working directory holds a log file name whose
    date has month 00, and after it in sorted order one with a valid date. *)
Definition w_cwd_bad_date : World :=
  mkWorld None [L "notes.txt"; L "2024-12-01-1.log.gz"; L "2024-00-01-1.log.gz"] [] false ∅.

(** [LOG_DIRECTORY] unset; the working directory holds a log file name with a
    valid date. *)
Definition w_cwd_log : World := mkWorld None [L "2024-01-02-1.log.gz"] [] false ∅.

(** [LOG_DIRECTORY] names a directory that does not exist. *)
Definition w_missing : World := mkWorld (Some (L "logs")) [] [] false ∅.

(** A log directory with no file named like a log. *)
Definition w_no_logs : World :=
  mkWorld (Some (L "logs")) [] [(L "logs", [(L "notes.txt", L "hello")])] false ∅.

(** The two events of the run on [w_ex]. *)
Definition ev_steve : event :=
  PlayerJoinLeave (combine (mkdate 2024 1 1) (mktime 14 22 1)) (L "Steve") (L "join").
Definition ev_alex : event :=
  PlayerJoinLeave (combine (mkdate 2024 1 2) (mktime 14 22 1)) (L "Alex") (L "join").

(** A log whose only entry continues on a second physical line. *)
Definition two_line_log : str := [nl] ++ L "[00:00:01] a" ++ [nl] ++ L "b".

(** An entry whose leading token is on the denylist but which the join pattern takes. *)
Definition done_join : str := srv "Done joined the game".

(** A join entry at the impossible time 25:00:00. *)
Definition bad_time_join : str :=
  L "[25:00:00] [Server thread/INFO] [net.minecraft.server.dedicated.DedicatedServer]: Steve joined the game".

(** A log whose first entry has a bad time and whose second entry is a valid join. *)
Definition w_bad_time : World :=
  mkWorld (Some (L "logs")) []
    [(L "logs", [(L "2024-01-01-1.log.gz",
                  [nl] ++ bad_time_join ++ [nl] ++ srv "Alex joined the game")])]
    false ∅.

(** A dedicated-server INFO line at [h:m:s]: the prefix, then [body]. *)
Definition server_line (h m s : nat) (body : str) : str :=
  L "[" ++ time_text h m s ++ HEAD ++ body.

(** [YYYY-MM-DD] for a date, as [str(datetime)] and [date.isoformat] print it. *)
Definition date_text (y m d : nat) : str :=
  pad 4 y ++ L "-" ++ pad 2 m ++ L "-" ++ pad 2 d.

(** The [player] field of an event. *)
Definition ev_player (e : event) : str :=
  match e with
  | PlayerJoinLeave _ p _ | PlayerAdvancement _ p _
  | PlayerDeath _ p _ | PlayerMessage _ p _ => p
  end.

(** The alternatives of the [type] group of [ADVANCEMENT_FORMAT]. *)
Definition ADVANCEMENT_KINDS : list str :=
  map L ["made the advancement"; "completed the challenge"; "reached the goal"]%string.

(** The names of the four CSV files. *)
Definition CSV_NAMES : list str := map fst CSV_FILES.

(** The date part of a log file name. *)
Definition DATE_PART : regex := seqs [digits 4; lit "-"; digits 2; lit "-"; digits 2].

(** A player token: 1 to 16 word characters. *)
Definition valid_player (p : str) : Prop := 1 <= length p <= 16 /\ forallb is_word p = true.


(** ** Sample runs *)

Example join_match_ex :
  option_map (fun c => (group (L "time") c, group (L "player") c))
    (option_map snd (re_match JOIN_FORMAT (srv "Steve joined the game")))
  = Some (L "14:22:01", L "Steve").
Proof. vm_compute. reflexivity. Qed.

Example entries_ex :
  findall LOG_ENTRY_FORMAT (L "[00:00:00] a" ++ [nl] ++ L "[00:00:01] b" ++ [nl] ++ L "c")
  = [L "[00:00:01] b"].
Proof. vm_compute. reflexivity. Qed.

Example classify_join_ex :
  classify (srv "Steve joined the game") d20240305
  = Ok (Some (PlayerJoinLeave (combine d20240305 (mktime 14 22 1)) (L "Steve") (L "join"))).
Proof. vm_compute. reflexivity. Qed.

Example classify_adv_ex :
  classify (srv "Steve has made the advancement [Stone Age]") d20240305
  = Ok (Some (PlayerAdvancement (combine d20240305 (mktime 14 22 1)) (L "Steve") (L "Stone Age"))).
Proof. vm_compute. reflexivity. Qed.

Example classify_loading_ex : classify (srv "Loading dimension data") d20240305 = Ok None.
Proof. vm_compute. reflexivity. Qed.

Example classify_msg_ex :
  classify (srv "<Steve> hello world") d20240305
  = Ok (Some (PlayerMessage (combine d20240305 (mktime 14 22 1)) (L "Steve") (L "hello world"))).
Proof. vm_compute. reflexivity. Qed.

Example classify_death_ex :
  classify (srv "Steve fell from a high place") d20240305
  = Ok (Some (PlayerDeath (combine d20240305 (mktime 14 22 1)) (L "Steve") (L "fell from a high place"))).
Proof. vm_compute. reflexivity. Qed.

Example main_ex :
  option_map (map ev_date) (match fst (main w_ex) with Ok l => Some l | Err _ => None end)
  = Some [mkdate 2024 1 1; mkdate 2024 1 2].
Proof. vm_compute. reflexivity. Qed.

Example csv_ex :
  (snd (main w_ex)).(output) !! L "joins_leaves.csv"
  = Some (L "time,player,type" ++ [cr; nl] ++ L "2024-01-01 14:22:01,Steve,join" ++ [cr; nl]
          ++ L "2024-01-02 14:22:01,Alex,join" ++ [cr; nl]).
Proof. vm_compute. reflexivity. Qed.

(** ** Facts about the matcher *)

Module ReFacts.

Lemma first_some_down_some {A} (f : nat -> option A) lo n x :
  first_some_down f lo n = Some x -> exists i, f i = Some x.
Proof.
  induction n as [|n IH]; simpl; destruct (f _) eqn:E; intros H.
  - injection H as <-. eauto.
  - discriminate.
  - injection H as <-. eauto.
  - destruct (lo <=? n); [auto | discriminate].
Qed.

Lemma first_some_down_top {A} (f : nat -> option A) n : first_some_down f n n = f n.
Proof.
  destruct n as [|n]; cbn -[Nat.leb]; destruct (f _); auto.
  rewrite (proj2 (Nat.leb_gt (S n) n)) by lia. reflexivity.
Qed.

Lemma take_count_le p n s : take_count p (Some n) s <= n.
Proof.
  revert n; induction s as [|c s IH]; intros [|n]; simpl; try lia.
  destruct (p c); [specialize (IH n); lia | lia].
Qed.

Lemma take_count_full p n s :
  take_count p (Some n) s = n <-> n <= length s /\ forallb p (firstn n s) = true.
Proof.
  revert n; induction s as [|c s IH]; intros [|n]; simpl.
  - split; [split; auto | auto].
  - split; [discriminate | intros [H _]; lia].
  - split; [split; [lia | auto] | auto].
  - destruct (p c); simpl.
    + specialize (IH n). split; intros H.
      * injection H as H. apply IH in H as [H1 H2]. split; [lia | exact H2].
      * destruct H as [H1 H2]. f_equal. apply IH. split; [lia | exact H2].
    + split; [intros H; discriminate | intros [_ H]; discriminate].
Qed.

Lemma mt_class_fixed {A} p n s c (k : str -> caps -> option A) :
  mt (RClass p n (Some n)) s c k
  = if (n <=? length s) && forallb p (firstn n s) then k (skipn n s) c else None.
Proof.
  simpl. pose proof (take_count_le p n s) as Hle.
  destruct (take_count p (Some n) s <? n) eqn:Hlt.
  - apply Nat.ltb_lt in Hlt.
    destruct ((n <=? length s) && forallb p (firstn n s)) eqn:Hc; [|reflexivity].
    apply andb_true_iff in Hc as [Hc1 Hc2]. apply Nat.leb_le in Hc1.
    assert (take_count p (Some n) s = n) by (apply take_count_full; auto). lia.
  - apply Nat.ltb_ge in Hlt.
    assert (Heq : take_count p (Some n) s = n) by lia.
    pose proof Heq as Hf. apply take_count_full in Hf as [Hf1 Hf2].
    rewrite Heq, Hf2. apply Nat.leb_le in Hf1. rewrite Hf1. simpl.
    exact (first_some_down_top (fun i => k (skipn i s) c) n).
Qed.

Lemma mt_fixed r :
  fixed r = true ->
  forall A s c (k : str -> caps -> option A),
    mt r s c k = match run_fixed r s c with Some (s', c') => k s' c' | None => None end.
Proof.
  induction r as [w|p lo [hi|]|a IHa b IHb|a IHa b IHb|nm a IHa]; intros Hf A s c k;
    simpl in Hf; try discriminate.
  - simpl. destruct (prefixb w s); reflexivity.
  - apply Nat.eqb_eq in Hf; subst. rewrite (mt_class_fixed p hi s c k).
    cbn [run_fixed]. destruct (_ && _); reflexivity.
  - apply andb_true_iff in Hf as [Ha Hb]. cbn [mt run_fixed]. rewrite IHa by exact Ha.
    destruct (run_fixed a s c) as [[s' c']|]; [apply IHb; exact Hb | reflexivity].
  - cbn [mt run_fixed]. rewrite IHa by exact Hf.
    destruct (run_fixed a s c) as [[s' c']|]; reflexivity.
Qed.

Lemma prefixb_spec w s : prefixb w s = true <-> exists t, s = w ++ t.
Proof.
  revert s; induction w as [|x w IH]; intros [|y s]; simpl.
  - split; eauto.
  - split; eauto.
  - split; [discriminate | intros [t Ht]; discriminate].
  - unfold ascii_eqb; destruct (ascii_dec x y) as [->|Hne]; simpl.
    + rewrite IH. split; intros [t Ht]; exists t; [subst; auto | injection Ht; auto].
    + split; [discriminate | intros [t Ht]; injection Ht; intros; congruence].
Qed.

Lemma run_fixed_skip r s c s' c' :
  run_fixed r s c = Some (s', c') -> width r <= length s /\ s' = skipn (width r) s.
Proof.
  revert s c s' c'; induction r as [w|p lo hi|a IHa b IHb|a IHa b IHb|nm a IHa];
    simpl; intros s c s' c' H.
  - destruct (prefixb w s) eqn:E; [|discriminate]. injection H; intros; subst.
    apply prefixb_spec in E as [t ->]. rewrite length_app. split; [lia | reflexivity].
  - destruct (_ && _) eqn:E; [|discriminate]. injection H; intros; subst.
    apply andb_true_iff in E as [E _]. apply Nat.leb_le in E. auto.
  - destruct (run_fixed a s c) as [[s1 c1]|] eqn:E1; [|discriminate].
    apply IHa in E1 as [Ha ->]. apply IHb in H as [Hb ->].
    rewrite length_skipn in Hb. rewrite skipn_skipn. split; [lia | f_equal; lia].
  - discriminate.
  - destruct (run_fixed a s c) as [[s1 c1]|] eqn:E1; [|discriminate].
    injection H; intros; subst. apply IHa in E1. exact E1.
Qed.

(** A successful match runs the continuation on a suffix of the input, with
    captures of the regex's own groups pushed on top. *)
Lemma mt_inv {A} r : forall s c (k : str -> caps -> option A) x,
  mt r s c k = Some x ->
  exists s' new, k s' (new ++ c) = Some x /\ (exists p, s = p ++ s')
                 /\ Forall (fun nv => In (fst nv) (names r)) new.
Proof.
  induction r as [w|p lo hi|a IHa b IHb|a IHa b IHb|nm a IHa]; simpl; intros s c k x H.
  - destruct (prefixb w s) eqn:E; [|discriminate].
    apply prefixb_spec in E as [t ->]. exists t, []. simpl.
    rewrite skipn_app, skipn_all, Nat.sub_diag in H. simpl in H.
    split; [exact H | split; [eauto | constructor]].
  - destruct (_ <? lo); [discriminate|].
    apply first_some_down_some in H as [i Hi]. exists (skipn i s), [].
    split; [exact Hi | split; [exists (firstn i s); symmetry; apply firstn_skipn | constructor]].
  - apply IHa in H as (s1 & n1 & H1 & [p1 ->] & F1).
    apply IHb in H1 as (s2 & n2 & H2 & [p2 ->] & F2).
    exists s2, (n2 ++ n1). rewrite <- app_assoc. split; [exact H2|].
    split; [exists (p1 ++ p2); rewrite app_assoc; reflexivity|].
    apply Forall_app; split; eapply Forall_impl; eauto; intros [] ?; simpl in *;
      apply in_or_app; auto.
  - destruct (mt a s c k) eqn:E.
    + injection H; intros; subst. apply IHa in E as (s' & n & H1 & Hp & F).
      exists s', n. split; [exact H1 | split; [exact Hp|]].
      eapply Forall_impl; eauto; intros [] ?; simpl in *; apply in_or_app; auto.
    + apply IHb in H as (s' & n & H1 & Hp & F).
      exists s', n. split; [exact H1 | split; [exact Hp|]].
      eapply Forall_impl; eauto; intros [] ?; simpl in *; apply in_or_app; auto.
  - apply IHa in H as (s' & n & H1 & Hp & F).
    exists s', ((nm, firstn (length s - length s') s) :: n). split; [exact H1 | split; [exact Hp|]].
    constructor; [simpl; auto|]. eapply Forall_impl; eauto; intros [] ?; simpl in *; auto.
Qed.

Lemma group_app_notin nm new c :
  Forall (fun nv => fst nv <> nm) new -> group nm (new ++ c) = group nm c.
Proof.
  induction 1 as [|[n v] new Hn _ IH]; simpl; [reflexivity|].
  simpl in Hn. rewrite decide_False by exact Hn. exact IH.
Qed.

Lemma mt_seq {A} a b s c (k : str -> caps -> option A) :
  mt (RSeq a b) s c k = mt a s c (fun s' c' => mt b s' c' k).
Proof. reflexivity. Qed.

Lemma run_fixed_seq_inv a b s c s' c' :
  run_fixed (RSeq a b) s c = Some (s', c') ->
  exists s1 c1, run_fixed a s c = Some (s1, c1) /\ run_fixed b s1 c1 = Some (s', c').
Proof.
  cbn [run_fixed]. destruct (run_fixed a s c) as [[s1 c1]|]; [eauto | discriminate].
Qed.

Lemma run_fixed_group_inv nm a s c s' c' :
  run_fixed (RGroup nm a) s c = Some (s', c') ->
  exists c0, run_fixed a s c = Some (s', c0)
             /\ c' = (nm, firstn (length s - length s') s) :: c0.
Proof.
  cbn [run_fixed]. destruct (run_fixed a s c) as [[s1 c1]|]; [|discriminate].
  intros H; injection H; intros; subst; eauto.
Qed.

Lemma run_fixed_nogroups r : names r = [] ->
  forall s c s' c', run_fixed r s c = Some (s', c') -> c' = c.
Proof.
  induction r as [w|p lo hi|a IHa b IHb|a IHa b IHb|nm a IHa]; simpl; intros Hn s c s' c' H.
  - destruct (prefixb w s); [injection H; auto | discriminate].
  - destruct (_ && _); [injection H; auto | discriminate].
  - apply app_eq_nil in Hn as [Ha Hb].
    destruct (run_fixed a s c) as [[s1 c1]|] eqn:E; [|discriminate].
    apply IHa in E; [|exact Ha]. apply IHb in H; [|exact Hb]. congruence.
  - discriminate.
  - discriminate.
Qed.

Lemma length_skipn_le n (s : str) : n <= length s -> length s - length (skipn n s) = n.
Proof. intros H. rewrite length_skipn. lia. Qed.

End ReFacts.

Import ReFacts.

(** ** The shared server prefix of the entry patterns *)

Module ServerFacts.

Lemma fixed_server_prefix : fixed SERVER_PREFIX = true.
Proof. reflexivity. Qed.

(** The prefix captures exactly [time_field]. *)
Lemma server_prefix_caps s c s' c' :
  run_fixed SERVER_PREFIX s c = Some (s', c') -> c' = (L "time", time_field s) :: c.
Proof.
  unfold SERVER_PREFIX; cbn [seqs]. intros H.
  apply run_fixed_seq_inv in H as (s1 & c1 & H1 & H2).
  assert (c1 = c) as -> by (eapply run_fixed_nogroups; [|exact H1]; reflexivity).
  apply run_fixed_skip in H1 as [_ ->].
  apply run_fixed_seq_inv in H2 as (s2 & c2 & H3 & H4).
  apply run_fixed_nogroups in H4; [|reflexivity]. subst c'.
  apply run_fixed_group_inv in H3 as (c0 & H5 & ->).
  assert (c0 = c) as -> by (eapply run_fixed_nogroups; [|exact H5]; reflexivity).
  apply run_fixed_skip in H5 as [Hw ->]. simpl in Hw.
  rewrite length_skipn_le by exact Hw. reflexivity.
Qed.

(** Whatever entry pattern matches, its [time] group is [time_field]. *)
Lemma server_time tail e rest m :
  re_match (RSeq SERVER_PREFIX tail) e = Some (rest, m) ->
  ~ In (L "time") (names tail) -> group (L "time") m = time_field e.
Proof.
  intros H0 Hn. revert H0. unfold re_match. rewrite mt_seq, (mt_fixed _ fixed_server_prefix).
  destruct (run_fixed SERVER_PREFIX e []) as [[s1 c1]|] eqn:E; [|discriminate].
  apply server_prefix_caps in E as ->. intros H.
  apply mt_inv in H as (s' & new & H & _ & F). injection H as _ <-.
  rewrite group_app_notin.
  - reflexivity.
  - eapply Forall_impl; [exact F|]. intros [n v] Hin; simpl in *. intros ->. contradiction.
Qed.

(** A well-formed prefix runs to its end and captures its time. *)
Lemma run_prefix h1 h2 m1 m2 s1 s2 rest c :
  forallb is_digit [h1; h2; m1; m2; s1; s2] = true ->
  run_fixed SERVER_PREFIX (L "[" ++ [h1; h2; ":"; m1; m2; ":"; s1; s2]%char ++ HEAD ++ rest) c
  = Some (rest, (L "time", [h1; h2; ":"; m1; m2; ":"; s1; s2]%char) :: c).
Proof.
  intros H. simpl in H.
  destruct (is_digit h1) eqn:E1, (is_digit h2) eqn:E2, (is_digit m1) eqn:E3,
    (is_digit m2) eqn:E4, (is_digit s1) eqn:E5, (is_digit s2) eqn:E6; try discriminate.
  assert (Hdot : not_newline "." = true) by reflexivity.
  repeat progress (cbn -[is_digit not_newline]; rewrite ?E1, ?E2, ?E3, ?E4, ?E5, ?E6, ?Hdot).
  assert (Hs : forall x, S (S (S (S (S (S (S (S x))))))) - x = 8) by lia.
  rewrite Hs. reflexivity.
Qed.

(** [<] is not a word character, so [\w{1,16}] cannot start there. *)
Lemma player_not_at_lt {A} r t c (k : str -> caps -> option A) :
  mt (RSeq PLAYER r) ("<"%char :: t) c k = None.
Proof. reflexivity. Qed.

End ServerFacts.

(** ** Classification *)

Module ClassifyFacts.

Lemma take_count_prefix p n w t :
  forallb p w = true -> length w <= n ->
  match t with [] => True | ch :: _ => p ch = false end ->
  take_count p (Some n) (w ++ t) = length w.
Proof.
  revert n; induction w as [|c w IH]; intros n Hw Hn Ht; simpl in *.
  - destruct t as [|ch t]; [reflexivity|]. destruct n; [reflexivity|]. simpl. rewrite Ht. reflexivity.
  - destruct n as [|n]; [lia|]. apply andb_true_iff in Hw as [Hc Hw]. rewrite Hc.
    f_equal. apply IH; auto; lia.
Qed.

Lemma first_some_down_hit {A} (f : nat -> option A) lo n x :
  f n = Some x -> first_some_down f lo n = Some x.
Proof. intros H. destruct n; simpl; rewrite H; reflexivity. Qed.

Lemma player_match {A} p t c (k : str -> caps -> option A) x :
  1 <= length p <= 16 -> forallb is_word p = true ->
  match t with [] => True | ch :: _ => is_word ch = false end ->
  k t ((L "player", p) :: c) = Some x -> mt PLAYER (p ++ t) c k = Some x.
Proof.
  intros Hl Hw Ht Hk. unfold PLAYER. cbn [mt].
  rewrite (take_count_prefix is_word 16 p t Hw) by (lia || exact Ht).
  rewrite (proj2 (Nat.ltb_ge (length p) 1)) by lia.
  apply first_some_down_hit. rewrite drop_app_length, length_app.
  replace (length p + length t - length t) with (length p) by lia.
  rewrite take_app_length. exact Hk.
Qed.

Lemma is_digit_char k : k < 10 -> is_digit (digit_char k) = true.
Proof.
  intros H. unfold is_digit, digit_char. rewrite nat_ascii_embedding by lia.
  apply andb_true_iff; split; apply Nat.leb_le; lia.
Qed.

Lemma digit_val_char k : k < 10 -> digit_val (digit_char k) = k.
Proof. intros H. unfold digit_val, digit_char. rewrite nat_ascii_embedding by lia. lia. Qed.

Lemma two_digits n : n < 100 ->
  digits_val [digit_char (n / 10 mod 10); digit_char (n mod 10)] = n.
Proof.
  intros H. cbn [digits_val length].
  assert (Hq : n / 10 < 10) by (apply Nat.Div0.div_lt_upper_bound; lia).
  pose proof (Nat.mod_upper_bound n 10 ltac:(lia)) as Hr.
  rewrite (Nat.mod_small (n / 10)) by exact Hq.
  rewrite !digit_val_char by lia.
  pose proof (Nat.div_mod_eq n 10). rewrite Nat.pow_1_r, Nat.pow_0_r. lia.
Qed.

Lemma time_text_eq h m s :
  time_text h m s
  = [digit_char (h / 10 mod 10); digit_char (h mod 10); ":";
     digit_char (m / 10 mod 10); digit_char (m mod 10); ":";
     digit_char (s / 10 mod 10); digit_char (s mod 10)]%char.
Proof. reflexivity. Qed.

Lemma time_text_parse h m s :
  h < 24 -> m < 60 -> s < 60 -> time_fromisoformat (time_text h m s) = Ok (mktime h m s).
Proof.
  intros Hh Hm Hs. rewrite time_text_eq. unfold time_fromisoformat.
  cbn [forallb]. rewrite !is_digit_char by (apply Nat.mod_upper_bound; lia).
  cbn [andb].
  assert (E : ascii_eqb ":" ":" = true) by reflexivity. rewrite E. cbn [andb].
  rewrite !two_digits by lia.
  rewrite (proj2 (Nat.ltb_lt h 24)), (proj2 (Nat.ltb_lt m 60)), (proj2 (Nat.ltb_lt s 60))
    by assumption.
  reflexivity.
Qed.

Lemma join_line_match h m s p :
  1 <= length p <= 16 -> forallb is_word p = true ->
  re_match JOIN_FORMAT (join_line h m s p)
  = Some ([], [(L "player", p); (L "time", time_text h m s)]).
Proof.
  intros Hl Hw. unfold re_match, JOIN_FORMAT, join_line.
  rewrite mt_seq, (mt_fixed _ ServerFacts.fixed_server_prefix), time_text_eq.
  rewrite ServerFacts.run_prefix
    by (cbn [forallb]; rewrite !is_digit_char by (apply Nat.mod_upper_bound; lia); reflexivity).
  rewrite mt_seq. apply player_match; [exact Hl | exact Hw | reflexivity |].
  rewrite <- time_text_eq. reflexivity.
Qed.

(** After the prefix, a chat line has [<], where no word can start. *)
Lemma message_prefix e :
  re_match MESSAGE_FORMAT e <> None ->
  exists t c1, run_fixed SERVER_PREFIX e [] = Some ("<"%char :: t, c1).
Proof.
  unfold re_match, MESSAGE_FORMAT. rewrite mt_seq, (mt_fixed _ ServerFacts.fixed_server_prefix).
  destruct (run_fixed SERVER_PREFIX e []) as [[s1 c1]|]; [|congruence].
  cbn [seqs]. rewrite mt_seq. intros H.
  destruct s1 as [|ch t]; [cbn in H; congruence|].
  destruct (ascii_dec ch "<") as [->|Hne]; [eauto|].
  exfalso. apply H. unfold lit, L. cbn [list_ascii_of_string mt prefixb].
  unfold ascii_eqb. destruct (ascii_dec "<" ch) as [Heq|]; [congruence | reflexivity].
Qed.

Lemma lt_no_player e t c1 r :
  run_fixed SERVER_PREFIX e [] = Some ("<"%char :: t, c1) ->
  re_match (RSeq SERVER_PREFIX (RSeq PLAYER r)) e = None.
Proof.
  intros E. unfold re_match.
  rewrite mt_seq, (mt_fixed _ ServerFacts.fixed_server_prefix), E.
  apply ServerFacts.player_not_at_lt.
Qed.

End ClassifyFacts.

Import ClassifyFacts.

(** ** Splitting a log into entries *)

Module EntryFacts.

Lemma findall_go_fuel r n m s :
  length s < n -> length s < m -> findall_go r n s = findall_go r m s.
Proof.
  revert m s; induction n as [|n IH]; intros m s H1 H2; [lia|].
  destruct m as [|m]; [lia|]. cbn [findall_go].
  destruct (re_match r s) as [[s' c]|].
  - destruct (length s' <? length s) eqn:E.
    + apply Nat.ltb_lt in E. f_equal. apply IH; lia.
    + f_equal. destruct s as [|ch t]; [reflexivity|]. simpl in *. apply IH; lia.
  - destruct s as [|ch t]; [reflexivity|]. simpl in *. apply IH; lia.
Qed.

Lemma entry_head_mismatch ch t : ch <> nl -> re_match LOG_ENTRY_FORMAT (ch :: t) = None.
Proof.
  intros Hch. unfold re_match, LOG_ENTRY_FORMAT. rewrite mt_seq.
  cbn [mt prefixb]. unfold ascii_eqb.
  destruct (ascii_dec nl ch) as [E|]; [congruence|reflexivity].
Qed.

Lemma findall_skip l r :
  forallb not_newline l = true ->
  findall LOG_ENTRY_FORMAT (l ++ r) = findall LOG_ENTRY_FORMAT r.
Proof.
  induction l as [|ch l IH]; intros Hl; [reflexivity|].
  simpl in Hl. apply andb_prop in Hl as [Hc Hl].
  unfold findall in *. simpl app. cbn [findall_go length].
  rewrite entry_head_mismatch.
  - exact (IH Hl).
  - intros ->. discriminate.
Qed.

Lemma run_marker x c :
  run_fixed ENTRY_MARKER x c = if is_marked x then Some (skipn 11 x, c) else None.
Proof.
  unfold is_marked.
  do 11 (destruct x as [|?ch x];
         [cbn -[is_digit ascii_eqb];
          repeat (first [reflexivity
                        | match goal with
                          | |- context [is_digit ?c] => destruct (is_digit c)
                          | |- context [ascii_eqb ?a ?c] => destruct (ascii_eqb a c)
                          end; cbn -[is_digit ascii_eqb]])|]).
  cbn -[is_digit ascii_eqb].
  destruct (ascii_eqb "[" ch); cbn -[is_digit ascii_eqb]; [|reflexivity].
  destruct (is_digit ch0); cbn -[is_digit ascii_eqb]; [|reflexivity].
  destruct (is_digit ch1); cbn -[is_digit ascii_eqb]; [|reflexivity].
  destruct (ascii_eqb ":" ch2); cbn -[is_digit ascii_eqb]; [|reflexivity].
  destruct (is_digit ch3); cbn -[is_digit ascii_eqb]; [|reflexivity].
  destruct (is_digit ch4); cbn -[is_digit ascii_eqb]; [|reflexivity].
  destruct (ascii_eqb ":" ch5); cbn -[is_digit ascii_eqb]; [|reflexivity].
  destruct (is_digit ch6); cbn -[is_digit ascii_eqb]; [|reflexivity].
  destruct (is_digit ch7); cbn -[is_digit ascii_eqb]; [|reflexivity].
  destruct (ascii_eqb "]" ch8); cbn -[is_digit ascii_eqb]; [|reflexivity].
  destruct (ascii_eqb " " ch9); reflexivity.
Qed.

Lemma check_tpl_length tpl l : check_tpl tpl l = true -> length tpl <= length l.
Proof.
  revert l; induction tpl as [|p tpl IH]; intros [|ch l] H; simpl in *; try lia; try discriminate.
  apply andb_prop in H as [_ H]. apply IH in H. lia.
Qed.

Lemma check_tpl_nl tpl l r :
  Forall (fun p => p nl = false) tpl ->
  check_tpl tpl (l ++ nl :: r) = check_tpl tpl l.
Proof.
  revert l; induction tpl as [|p tpl IH]; intros [|ch l] Hf; inversion Hf; subst; simpl; auto.
  - rewrite H1. reflexivity.
  - rewrite IH by assumption. reflexivity.
Qed.

Lemma is_marked_line l r :
  (r = [] \/ exists r', r = nl :: r') -> is_marked (l ++ r) = is_marked l.
Proof.
  intros [->|[r' ->]]; [rewrite app_nil_r; reflexivity|].
  apply check_tpl_nl. repeat constructor.
Qed.

Lemma take_count_line l r :
  forallb not_newline l = true -> (r = [] \/ exists r', r = nl :: r') ->
  take_count not_newline None (l ++ r) = length l.
Proof.
  intros Hl Hr. induction l as [|ch l IH]; simpl in *.
  - destruct Hr as [->|[r' ->]]; reflexivity.
  - apply andb_prop in Hl as [-> Hl]. rewrite IH by exact Hl. reflexivity.
Qed.

Lemma entry_match l r :
  forallb not_newline l = true -> (r = [] \/ exists r', r = nl :: r') ->
  re_match LOG_ENTRY_FORMAT (nl :: l ++ r) =
    if is_marked l then Some (r, [(L "1", l)]) else None.
Proof.
  intros Hl Hr. unfold re_match.
  transitivity (mt ENTRY_MARKER (l ++ r) []
    (fun s' c' => mt dotstar s' c'
       (fun s2 c2 => Some (s2, (L "1", firstn (length (l ++ r) - length s2) (l ++ r)) :: c2)))).
  { reflexivity. }
  rewrite mt_fixed by reflexivity. rewrite run_marker, is_marked_line by exact Hr.
  destruct (is_marked l) eqn:Hm; [|reflexivity].
  apply check_tpl_length in Hm. simpl in Hm.
  rewrite skipn_app. replace (11 - length l) with 0 by lia. rewrite skipn_O.
  unfold dotstar. cbn [mt].
  rewrite take_count_line.
  2: { rewrite <- (firstn_skipn 11 l), forallb_app in Hl. apply andb_prop in Hl as [_ Hl]. exact Hl. }
  2: exact Hr.
  apply first_some_down_hit.
  rewrite skipn_app, Nat.sub_diag, skipn_all, skipn_O. simpl app.
  rewrite length_app, Nat.add_sub, firstn_app, Nat.sub_diag, firstn_all. simpl.
  rewrite app_nil_r. reflexivity.
Qed.

Lemma split_lines_nonempty s : split_lines s <> [].
Proof.
  destruct s as [|ch t]; simpl; [discriminate|].
  destruct (ascii_eqb ch nl); [discriminate|]. destruct (split_lines t); discriminate.
Qed.

Lemma split_lines_app l r :
  forallb not_newline l = true -> (r = [] \/ exists r', r = nl :: r') ->
  split_lines (l ++ r) = l :: tl (split_lines r).
Proof.
  intros Hl Hr. induction l as [|ch l IH]; simpl in *.
  - destruct Hr as [->|[r' ->]]; reflexivity.
  - apply andb_prop in Hl as [Hc Hl]. unfold not_newline in Hc.
    apply negb_true_iff in Hc. rewrite Hc, IH by exact Hl. reflexivity.
Qed.

Lemma split_lines_skip ch t : ch <> nl -> tl (split_lines (ch :: t)) = tl (split_lines t).
Proof.
  intros Hch. simpl. unfold ascii_eqb at 1.
  destruct (ascii_dec ch nl) as [E|]; [congruence|].
  destruct (split_lines t) eqn:E; [exfalso; exact (split_lines_nonempty t E)|reflexivity].
Qed.

Lemma break_line t :
  exists l r, t = l ++ r /\ forallb not_newline l = true /\ (r = [] \/ exists r', r = nl :: r').
Proof.
  induction t as [|ch t (l & r & -> & Hl & Hr)].
  - exists [], []. auto.
  - destruct (ascii_dec ch nl) as [->|Hch].
    + exists [], (nl :: l ++ r). eauto.
    + exists (ch :: l), r. split; [reflexivity|]. split; [|exact Hr].
      simpl. rewrite Hl, andb_true_r. unfold not_newline, ascii_eqb.
      destruct (ascii_dec ch nl); [contradiction|reflexivity].
Qed.

Lemma findall_lines n s :
  length s < n -> findall_go LOG_ENTRY_FORMAT n s = List.filter is_marked (tl (split_lines s)).
Proof.
  revert s; induction n as [|n IH]; intros s Hn; [lia|].
  destruct s as [|ch t]; [reflexivity|].
  destruct (ascii_dec ch nl) as [->|Hch].
  - destruct (break_line t) as (l & r & -> & Hl & Hr).
    cbn [findall_go]. rewrite entry_match by assumption.
    cbn [split_lines tl]. replace (ascii_eqb nl nl) with true by reflexivity.
    cbn [tl]. rewrite split_lines_app by assumption.
    simpl length in Hn. rewrite length_app in Hn.
    destruct (is_marked l) eqn:Hm.
    + replace (length r <? length (nl :: l ++ r)) with true
        by (symmetry; apply Nat.ltb_lt; simpl; rewrite length_app; lia).
      rewrite IH by lia. cbn [List.filter]. rewrite Hm. reflexivity.
    + rewrite IH by (rewrite length_app; lia).
      rewrite split_lines_app by assumption. cbn [List.filter tl]. rewrite Hm. reflexivity.
  - cbn [findall_go]. rewrite entry_head_mismatch by exact Hch.
    rewrite IH by (simpl in Hn; lia). rewrite split_lines_skip by exact Hch. reflexivity.
Qed.

End EntryFacts.

Import EntryFacts.

(** ** The file system and the run *)

Module WorldFacts.

Lemma listdir_world p w : snd (listdir p w) = w.
Proof. unfold listdir. destruct p as [d|]; [destruct (assoc d (dirs w))|]; reflexivity. Qed.

Lemma listdir_ok p w : exists r, listdir p w = (r, w).
Proof. unfold listdir. destruct p as [d|]; [destruct (assoc d (dirs w))|]; eauto. Qed.

Lemma main_unfold w :
  main w = match fst (listdir (LOG_DIRECTORY w) w) with
           | Ok files => process_files (LOG_DIRECTORY w) (sort (List.filter is_log_file files)) [] w
           | Err e => (Err e, w)
           end.
Proof.
  unfold main, mbind, M_bind, get.
  destruct (listdir_ok (LOG_DIRECTORY w) w) as [r E]. rewrite E. simpl.
  destruct r; reflexivity.
Qed.

Lemma filter_none_log files :
  forallb (fun f => negb (is_log_file f)) files = true -> List.filter is_log_file files = [].
Proof.
  induction files as [|f fs IH]; simpl; [reflexivity|].
  intros H. apply andb_prop in H as [Hf H]. apply negb_true_iff in Hf. rewrite Hf. auto.
Qed.

Lemma sort_nil l : sort l = [] -> l = [].
Proof.
  destruct l as [|x l]; [reflexivity|]. simpl.
  destruct (sort l) as [|y l']; simpl; [discriminate|]. destruct (str_ltb x y); discriminate.
Qed.

Lemma date_iso_err t e : date_fromisoformat t = Err e -> e = ValueError.
Proof.
  unfold date_fromisoformat.
  repeat match goal with
         | |- context [match ?x with _ => _ end] => destruct x
         end; congruence.
Qed.

Lemma write_csvs_eq evs w :
  write_csvs evs w =
    (Ok tt, mkWorld (LOG_DIRECTORY w)
       (if output_exists w then cwd_listing w else cwd_listing w ++ [L "output"]) (dirs w) true
       (<[L "messages.csv" := csv_text TMessage evs]>
         (<[L "deaths.csv" := csv_text TDeath evs]>
           (<[L "advancements.csv" := csv_text TAdvancement evs]>
             (<[L "joins_leaves.csv" := csv_text TJoinLeave evs]> (output w)))))).
Proof. destruct w as [ld cl ds [|] o]; reflexivity. Qed.

End WorldFacts.
Import WorldFacts.

(** ** Order of the log files and of the events *)

Module OrderFacts.

Lemma str_ltb_irrefl a : str_ltb a a = false.
Proof.
  induction a as [|x a IH]; simpl; [reflexivity|].
  rewrite Nat.ltb_irrefl, Nat.eqb_refl, IH. reflexivity.
Qed.

Lemma str_ltb_trans a b c : str_ltb a b = true -> str_ltb b c = true -> str_ltb a c = true.
Proof.
  revert b c; induction a as [|x a IH]; intros [|y b] [|z c]; simpl; try discriminate; auto.
  rewrite !orb_true_iff, !andb_true_iff, !Nat.ltb_lt, !Nat.eqb_eq.
  intros [H1|[H1 H1']] [H2|[H2 H2']]; try (left; lia).
  right. split; [lia|]. eauto.
Qed.

Lemma in_insert_sorted x l z : In z (insert_sorted x l) <-> z = x \/ In z l.
Proof.
  induction l as [|y l IH]; simpl; [intuition congruence|].
  destruct (str_ltb x y); simpl; [intuition congruence|]. rewrite IH. intuition congruence.
Qed.

Lemma in_sort l z : In z (sort l) <-> In z l.
Proof.
  induction l as [|x l IH]; simpl; [tauto|]. rewrite in_insert_sorted, IH. intuition congruence.
Qed.

Definition str_le (a b : str) : Prop := str_ltb b a = false.

Lemma insert_sorted_sorted x l :
  StronglySorted str_le l -> StronglySorted str_le (insert_sorted x l).
Proof.
  induction 1 as [|y l Hl IH Hy]; simpl.
  - repeat constructor.
  - destruct (str_ltb x y) eqn:Exy.
    + constructor; [constructor; assumption|]. constructor.
      * unfold str_le. destruct (str_ltb y x) eqn:Eyx; [|reflexivity].
        rewrite <- (str_ltb_irrefl x). symmetry. exact (str_ltb_trans _ _ _ Exy Eyx).
      * eapply Forall_impl; [exact Hy|]. unfold str_le. intros z Hz.
        destruct (str_ltb z x) eqn:Ezx; [|reflexivity].
        rewrite <- Hz. symmetry. exact (str_ltb_trans _ _ _ Ezx Exy).
    + constructor; [exact IH|]. apply List.Forall_forall. intros z Hz.
      apply in_insert_sorted in Hz as [->|Hz]; [exact Exy|].
      rewrite List.Forall_forall in Hy. auto.
Qed.

Lemma sort_sorted l : StronglySorted str_le (sort l).
Proof.
  induction l as [|x l IH]; simpl; [constructor|]. apply insert_sorted_sorted, IH.
Qed.

Lemma ssorted_lookup {A} (R : A -> A -> Prop) l i j x y :
  StronglySorted R l -> l !! i = Some x -> l !! j = Some y -> i < j -> R x y.
Proof.
  intros HS. revert i j. induction HS as [|a l Hl IH Ha]; intros i j Hi Hj Hij; [discriminate|].
  destruct i as [|i], j as [|j]; try lia; simpl in Hi, Hj.
  - injection Hi as <-. apply list_elem_of_lookup_2, list_elem_of_In in Hj.
    rewrite List.Forall_forall in Ha. auto.
  - apply (IH i j); auto. lia.
Qed.

Lemma ssorted_app {A} (R : A -> A -> Prop) l1 l2 :
  StronglySorted R l1 -> StronglySorted R l2 ->
  (forall x y, In x l1 -> In y l2 -> R x y) -> StronglySorted R (l1 ++ l2).
Proof.
  induction 1 as [|a l Hl IH Ha]; intros H2 Hxy; simpl; [exact H2|].
  constructor.
  - apply IH; [exact H2|]. intros x y Hx Hy. apply Hxy; simpl; auto.
  - apply Forall_app. split; [exact Ha|]. apply List.Forall_forall. intros y Hy. apply Hxy; simpl; auto.
Qed.

Lemma ssorted_all {A} (R : A -> A -> Prop) l :
  (forall x y, In x l -> In y l -> R x y) -> StronglySorted R l.
Proof.
  induction l as [|a l IH]; intros H; constructor.
  - apply IH. intros x y Hx Hy. apply H; simpl; auto.
  - apply List.Forall_forall. intros y Hy. apply H; simpl; auto.
Qed.

Lemma str_ltb_app_l a b x y :
  length a = length b -> str_ltb a b = true -> str_ltb (a ++ x) (b ++ y) = true.
Proof.
  revert b; induction a as [|p a IH]; intros [|q b] Hl H; simpl in *; try discriminate.
  rewrite orb_true_iff, andb_true_iff in *. destruct H as [H|[H1 H2]]; [left; exact H|].
  right. split; [exact H1|]. apply IH; auto.
Qed.

Lemma str_ltb_common a x y : str_ltb (a ++ x) (a ++ y) = str_ltb x y.
Proof.
  induction a as [|p a IH]; simpl; [reflexivity|].
  rewrite Nat.ltb_irrefl, Nat.eqb_refl, IH. reflexivity.
Qed.

Lemma digit_facts c : is_digit c = true -> digit_val c < 10 /\ nat_of_ascii c = 48 + digit_val c.
Proof.
  unfold is_digit, digit_val. rewrite andb_true_iff, !Nat.leb_le. lia.
Qed.

Lemma digits_val_lt a : forallb is_digit a = true -> digits_val a < 10 ^ length a.
Proof.
  induction a as [|c a IH]; simpl; [lia|].
  intros H. apply andb_prop in H as [Hc H]. apply digit_facts in Hc as [Hc _].
  specialize (IH H). nia.
Qed.

Lemma digits_lex a b :
  forallb is_digit a = true -> forallb is_digit b = true -> length a = length b ->
  (digits_val a < digits_val b -> str_ltb a b = true) /\
  (digits_val a = digits_val b -> a = b).
Proof.
  revert b; induction a as [|x a IH]; intros [|y b] Ha Hb Hl; simpl in *; try discriminate.
  - split; [lia | reflexivity].
  - apply andb_prop in Ha as [Hx Ha], Hb as [Hy Hb].
    injection Hl as Hl.
    apply digit_facts in Hx as [Hx Ex], Hy as [Hy Ey].
    pose proof (digits_val_lt a Ha) as Ba. pose proof (digits_val_lt b Hb) as Bb.
    rewrite Hl in Ba |- *. set (P := 10 ^ length b) in *.
    destruct (IH b Ha Hb Hl) as [IH1 IH2].
    destruct (lt_eq_lt_dec (digit_val x) (digit_val y)) as [[Lt|Eq]|Gt].
    + assert (digit_val x * P + P <= digit_val y * P) by nia.
      split; [|lia]. intros _. rewrite orb_true_iff, Nat.ltb_lt. left. lia.
    + rewrite Eq. split.
      * intros Hlt. rewrite orb_true_iff, andb_true_iff, Nat.eqb_eq. right.
        split; [lia|]. apply IH1. lia.
      * intros Heq. f_equal; [|apply IH2; lia].
        rewrite <- (ascii_nat_embedding x), <- (ascii_nat_embedding y). f_equal. lia.
    + assert (digit_val y * P + P <= digit_val x * P) by nia. split; lia.
Qed.

Lemma date_iso_inv t d :
  date_fromisoformat t = Ok d ->
  exists y1 y2 y3 y4 m1 m2 d1 d2,
    t = [y1; y2; y3; y4; "-"; m1; m2; "-"; d1; d2]%char /\
    forallb is_digit [y1; y2; y3; y4; m1; m2; d1; d2] = true /\
    d = mkdate (digits_val [y1; y2; y3; y4]) (digits_val [m1; m2]) (digits_val [d1; d2]).
Proof.
  unfold date_fromisoformat.
  do 10 (destruct t as [|? t]; [discriminate|]). destruct t; [|discriminate].
  destruct (forallb is_digit _) eqn:Hd; [|discriminate].
  unfold ascii_eqb.
  destruct (ascii_dec _ "-"), (ascii_dec _ "-"); subst; simpl; try discriminate.
  destruct (_ && _); [|discriminate]. intros H; injection H as <-.
  do 8 eexists. split; [reflexivity|]. split; [exact Hd | reflexivity].
Qed.

Lemma date_text_order t1 t2 d1 d2 :
  date_fromisoformat t1 = Ok d1 -> date_fromisoformat t2 = Ok d2 ->
  date_lt d2 d1 -> length t2 = length t1 /\ str_ltb t2 t1 = true.
Proof.
  intros H1 H2 Hlt.
  apply date_iso_inv in H1 as (a1 & a2 & a3 & a4 & b1 & b2 & c1 & c2 & -> & D1 & ->).
  apply date_iso_inv in H2 as (e1 & e2 & e3 & e4 & f1 & f2 & g1 & g2 & -> & D2 & ->).
  split; [reflexivity|]. unfold date_lt in Hlt; cbn [year month day] in Hlt.
  simpl in D1, D2. rewrite !andb_true_iff in D1, D2.
  destruct D1 as (A1 & A2 & A3 & A4 & B1 & B2 & C1 & C2 & _).
  destruct D2 as (E1 & E2 & E3 & E4 & F1 & F2 & G1 & G2 & _).
  destruct (digits_lex [e1; e2; e3; e4] [a1; a2; a3; a4]) as [Y1 Y2];
    [cbn [forallb]; rewrite ?A1, ?A2, ?A3, ?A4, ?E1, ?E2, ?E3, ?E4; reflexivity ..|].
  destruct (digits_lex [f1; f2] [b1; b2]) as [M1 M2];
    [cbn [forallb]; rewrite ?B1, ?B2, ?F1, ?F2; reflexivity ..|].
  destruct (digits_lex [g1; g2] [c1; c2]) as [D1 D2];
    [cbn [forallb]; rewrite ?C1, ?C2, ?G1, ?G2; reflexivity ..|].
  destruct Hlt as [Hlt|[Heq Hlt]].
  - exact (str_ltb_app_l [e1; e2; e3; e4] [a1; a2; a3; a4] _ _ eq_refl (Y1 Hlt)).
  - apply Y2 in Heq. injection Heq as -> -> -> ->.
    refine (eq_trans (str_ltb_common [a1; a2; a3; a4; "-"]%char
                        [f1; f2; "-"; g1; g2]%char [b1; b2; "-"; c1; c2]%char) _).
    destruct Hlt as [Hlt|[Heq Hlt]].
    + exact (str_ltb_app_l [f1; f2] [b1; b2] _ _ eq_refl (M1 Hlt)).
    + apply M2 in Heq. injection Heq as -> ->.
      refine (eq_trans (str_ltb_common [b1; b2; "-"]%char [g1; g2] [c1; c2]) _).
      exact (D1 Hlt).
Qed.

Lemma mt_group {A} nm a s c (k : str -> caps -> option A) :
  mt (RGroup nm a) s c k =
    mt a s c (fun s' c' => k s' ((nm, firstn (length s - length s') s) :: c')).
Proof. reflexivity. Qed.

Lemma file_date_prefix f : is_log_file f = true -> exists r, f = file_date_text f ++ r.
Proof.
  unfold is_log_file, file_date_text.
  destruct (re_fullmatch LOG_FILENAME_FORMAT f) as [c|] eqn:E; [|discriminate]. intros _.
  unfold re_fullmatch, LOG_FILENAME_FORMAT in E. cbn [seqs] in E.
  rewrite mt_seq, mt_group, mt_fixed in E by reflexivity.
  destruct (run_fixed _ f []) as [[s1 c1]|] eqn:R; [|discriminate].
  pose proof (run_fixed_skip _ _ _ _ _ R) as [Hw ->]. simpl width in Hw.
  assert (c1 = []) as -> by (eapply run_fixed_nogroups; [|exact R]; reflexivity).
  apply mt_inv in E as (s2 & new & Hk & _ & Hn).
  destruct new as [|nv new]; [|inversion Hn as [|? ? Hin]; simpl in Hin; contradiction].
  destruct s2; simpl in Hk; [|discriminate]. injection Hk as <-.
  rewrite length_skipn_le by exact Hw. cbn [group]. rewrite decide_True by reflexivity.
  exists (skipn 10 f). symmetry. apply firstn_skipn.
Qed.

Lemma file_order f1 f2 d1 d2 :
  is_log_file f1 = true -> is_log_file f2 = true ->
  date_fromisoformat (file_date_text f1) = Ok d1 ->
  date_fromisoformat (file_date_text f2) = Ok d2 ->
  date_lt d2 d1 -> str_ltb f2 f1 = true.
Proof.
  intros L1 L2 H1 H2 Hlt.
  destruct (file_date_prefix f1 L1) as [r1 E1], (file_date_prefix f2 L2) as [r2 E2].
  destruct (date_text_order _ _ _ _ H1 H2 Hlt) as [Hl Ho].
  rewrite E1, E2. apply str_ltb_app_l; assumption.
Qed.

Lemma classify_date e d ev : classify e d = Ok (Some ev) -> ev_date ev = d.
Proof.
  unfold classify, mbind, result_bind.
  repeat match goal with
         | |- context [match ?x with _ => _ end] => destruct x
         end; intros H; try discriminate; injection H as <-; reflexivity.
Qed.

Lemma process_entries_app d es : forall s s',
  process_entries d es s = Ok s' ->
  exists new, s' = s ++ new /\ Forall (fun e => ev_date e = d) new.
Proof.
  induction es as [|e es IH]; intros s s' H; simpl in H.
  - injection H as <-. exists []. rewrite app_nil_r. auto.
  - destruct (classify e d) as [[ev|]|x] eqn:E; [| |discriminate].
    + apply IH in H as (new & -> & Hn). exists (ev :: new).
      rewrite <- app_assoc. split; [reflexivity|]. constructor; [|exact Hn].
      exact (classify_date _ _ _ E).
    + exact (IH _ _ H).
Qed.

Definition ev_le (e1 e2 : event) : Prop := ~ date_lt (ev_date e2) (ev_date e1).

Lemma date_lt_irrefl d : ~ date_lt d d.
Proof. unfold date_lt. lia. Qed.

Lemma process_files_sorted path fl : forall stream w evs w',
  process_files path fl stream w = (Ok evs, w') ->
  StronglySorted str_le fl -> Forall (fun f => is_log_file f = true) fl ->
  StronglySorted ev_le stream ->
  (forall e f d, In e stream -> In f fl ->
     date_fromisoformat (file_date_text f) = Ok d -> ~ date_lt d (ev_date e)) ->
  StronglySorted ev_le evs.
Proof.
  induction fl as [|f fs IH]; intros stream w evs w' H Hs Hf Hst Hd; cbn [process_files] in H.
  - injection H as <- _. exact Hst.
  - unfold mbind, M_bind, lift in H.
    destruct (date_fromisoformat (file_date_text f)) as [ld|x] eqn:Eld; [|discriminate].
    destruct (read_log path f w) as [[log|x] w1]; [|discriminate].
    destruct (process_entries ld (findall LOG_ENTRY_FORMAT log) stream) as [s'|x] eqn:Ep;
      [|discriminate].
    rewrite write_csvs_eq in H.
    apply process_entries_app in Ep as (new & -> & Hnew).
    inversion Hs as [|? ? Hs' Hfs]; subst. inversion Hf as [|? ? Hlf Hf']; subst.
    rewrite List.Forall_forall in Hnew, Hfs, Hf'.
    eapply IH; [exact H | exact Hs' | apply List.Forall_forall; exact Hf' | |].
    + apply ssorted_app; [exact Hst | |].
      * apply ssorted_all. intros x y Hx Hy. unfold ev_le.
        rewrite (Hnew x Hx), (Hnew y Hy). apply date_lt_irrefl.
      * intros x y Hx Hy. unfold ev_le. rewrite (Hnew y Hy).
        apply (Hd x f ld Hx); [left; reflexivity | exact Eld].
    + intros e f' d' He Hf'' Ed'. apply in_app_or in He as [He|He].
      * apply (Hd e f' d' He); [right; exact Hf'' | exact Ed'].
      * rewrite (Hnew e He). intros Hlt.
        pose proof (file_order f f' ld d' Hlf (Hf' f' Hf'') Eld Ed' Hlt) as Ho.
        pose proof (Hfs f' Hf'') as Hle. unfold str_le in Hle. congruence.
Qed.

Lemma main_sorted w evs w' : main w = (Ok evs, w') -> StronglySorted ev_le evs.
Proof.
  rewrite main_unfold. destruct (fst (listdir (LOG_DIRECTORY w) w)) as [files|x]; [|discriminate].
  intros H. eapply process_files_sorted; [exact H | apply sort_sorted | | constructor | ].
  - apply List.Forall_forall. intros f Hf. apply in_sort, filter_In in Hf. apply Hf.
  - intros e f d [].
Qed.

End OrderFacts.
Import OrderFacts.

Module ParseFacts.

Lemma length_pad w n : length (pad w n) = w.
Proof.
  revert n; induction w as [|w IH]; intros n; simpl; [reflexivity|].
  rewrite length_app, IH. simpl. lia.
Qed.

Lemma pad_digits w n : forallb is_digit (pad w n) = true.
Proof.
  revert n; induction w as [|w IH]; intros n; cbn [pad]; [reflexivity|].
  rewrite forallb_app, IH. cbn [forallb].
  rewrite is_digit_char by (apply Nat.mod_upper_bound; lia). reflexivity.
Qed.

Lemma digits_val_snoc l c : digits_val (l ++ [c]) = digits_val l * 10 + digit_val c.
Proof.
  induction l as [|x l IH]; simpl; [lia|].
  rewrite IH, length_app, Nat.pow_add_r. simpl. ring.
Qed.

Lemma digits_val_pad w n : digits_val (pad w n) = n mod 10 ^ w.
Proof.
  revert n; induction w as [|w IH]; intros n; cbn [pad].
  - rewrite Nat.pow_0_r, Nat.mod_1_r. reflexivity.
  - rewrite digits_val_snoc, IH, digit_val_char by (apply Nat.mod_upper_bound; lia).
    rewrite Nat.pow_succ_r', Nat.Div0.mod_mul_r. lia.
Qed.

Lemma digits_val_pad_small w n : n < 10 ^ w -> digits_val (pad w n) = n.
Proof. intros H. rewrite digits_val_pad. apply Nat.mod_small, H. Qed.

Lemma pow10_4 : 10 ^ 4 = 10000.
Proof. reflexivity. Qed.

Lemma pow10_2 : 10 ^ 2 = 100.
Proof. reflexivity. Qed.

Lemma date_iso_parts Y M D :
  length Y = 4 -> length M = 2 -> length D = 2 ->
  forallb is_digit Y = true -> forallb is_digit M = true -> forallb is_digit D = true ->
  date_fromisoformat (Y ++ L "-" ++ M ++ L "-" ++ D) =
    let y := digits_val Y in let m := digits_val M in let d := digits_val D in
    if (1 <=? y) && (y <=? 9999) && (1 <=? m) && (m <=? 12)
       && (1 <=? d) && (d <=? days_in_month y m)
    then Ok (mkdate y m d) else Err ValueError.
Proof.
  intros LY LM LD HY HM HD.
  destruct Y as [|y1 [|y2 [|y3 [|y4 [|]]]]]; try discriminate.
  destruct M as [|m1 [|m2 [|]]]; try discriminate.
  destruct D as [|d1 [|d2 [|]]]; try discriminate.
  unfold date_fromisoformat. cbn [app L list_ascii_of_string].
  replace (forallb is_digit [y1; y2; y3; y4; m1; m2; d1; d2]) with true.
  2: { symmetry. change [y1; y2; y3; y4; m1; m2; d1; d2]
         with ([y1; y2; y3; y4] ++ [m1; m2] ++ [d1; d2]).
       rewrite !forallb_app, HY, HM, HD. reflexivity. }
  reflexivity.
Qed.

Lemma time_iso_parts H M S :
  length H = 2 -> length M = 2 -> length S = 2 ->
  forallb is_digit H = true -> forallb is_digit M = true -> forallb is_digit S = true ->
  time_fromisoformat (H ++ L ":" ++ M ++ L ":" ++ S) =
    let h := digits_val H in let m := digits_val M in let s := digits_val S in
    if (h <? 24) && (m <? 60) && (s <? 60) then Ok (mktime h m s) else Err ValueError.
Proof.
  intros LH LM LS HH HM HS.
  destruct H as [|h1 [|h2 [|]]]; try discriminate.
  destruct M as [|m1 [|m2 [|]]]; try discriminate.
  destruct S as [|s1 [|s2 [|]]]; try discriminate.
  unfold time_fromisoformat. cbn [app L list_ascii_of_string].
  replace (forallb is_digit [h1; h2; m1; m2; s1; s2]) with true.
  2: { symmetry. change [h1; h2; m1; m2; s1; s2] with ([h1; h2] ++ [m1; m2] ++ [s1; s2]).
       rewrite !forallb_app, HH, HM, HS. reflexivity. }
  reflexivity.
Qed.

Lemma date_text_parse y m d :
  y < 10000 -> m < 100 -> d < 100 ->
  date_fromisoformat (date_text y m d) =
    if (1 <=? y) && (y <=? 9999) && (1 <=? m) && (m <=? 12)
       && (1 <=? d) && (d <=? days_in_month y m)
    then Ok (mkdate y m d) else Err ValueError.
Proof.
  intros Hy Hm Hd. unfold date_text.
  rewrite date_iso_parts by (apply length_pad || apply pad_digits).
  cbn zeta. rewrite !digits_val_pad_small by (rewrite ?pow10_4, ?pow10_2; lia). reflexivity.
Qed.

Lemma time_text_parse_all h m s :
  h < 100 -> m < 100 -> s < 100 ->
  time_fromisoformat (time_text h m s) =
    if (h <? 24) && (m <? 60) && (s <? 60) then Ok (mktime h m s) else Err ValueError.
Proof.
  intros Hh Hm Hs. unfold time_text.
  rewrite time_iso_parts by (apply length_pad || apply pad_digits).
  cbn zeta. rewrite !digits_val_pad_small by (rewrite ?pow10_4, ?pow10_2; lia). reflexivity.
Qed.

Lemma str_datetime_split dt :
  str_datetime dt =
    date_text (year (dt_date dt)) (month (dt_date dt)) (day (dt_date dt)) ++ L " "
    ++ time_text (hour (dt_time dt)) (minute (dt_time dt)) (second (dt_time dt)).
Proof. unfold str_datetime, date_text, time_text. rewrite <- !app_assoc. reflexivity. Qed.

Lemma length_date_text y m d : length (date_text y m d) = 10.
Proof. unfold date_text. rewrite !length_app, !length_pad. reflexivity. Qed.

Lemma days_in_month_le y m : days_in_month y m <= 31.
Proof.
  unfold days_in_month.
  destruct m as [|[|[|[|[|[|[|[|[|[|[|[|m]]]]]]]]]]]]; try lia.
  destruct (is_leap y); lia.
Qed.

Lemma lt_10000 y : y < 10000 -> y <= 9999.
Proof. intros H. apply Nat.lt_succ_r. exact H. Qed.

Lemma date_text_valid y m d :
  1 <= y <= 9999 -> 1 <= m <= 12 -> 1 <= d <= days_in_month y m ->
  date_fromisoformat (date_text y m d) = Ok (mkdate y m d).
Proof.
  intros Hy Hm Hd. pose proof (days_in_month_le y m) as Hdm.
  assert (Hy' : y < 10000) by (apply (proj2 (Nat.lt_succ_r y 9999)); lia).
  rewrite date_text_parse by lia.
  replace ((1 <=? y) && (y <=? 9999) && (1 <=? m) && (m <=? 12)
           && (1 <=? d) && (d <=? days_in_month y m)) with true; [reflexivity|].
  symmetry. rewrite !andb_true_iff, !Nat.leb_le. lia.
Qed.

End ParseFacts.
Import ParseFacts.

Module LineFacts.

Lemma first_some_down_none {A} (f : nat -> option A) lo n :
  (forall i, i <= n -> f i = None) -> first_some_down f lo n = None.
Proof.
  induction n as [|n IH]; intros H; simpl; rewrite H by lia; [reflexivity|].
  destruct (lo <=? n); [apply IH; intros i Hi; apply H; lia | reflexivity].
Qed.

Lemma first_some_down_only {A} (f : nat -> option A) lo n :
  (forall i, i < n -> f i = None) -> first_some_down f lo n = f n.
Proof.
  intros H. destruct n as [|n]; simpl; destruct (f _) eqn:E; try reflexivity.
  destruct (lo <=? n); [apply first_some_down_none; intros i Hi; apply H; lia | reflexivity].
Qed.

Lemma first_some_down_range {A} (f : nat -> option A) lo n x :
  lo <= n -> first_some_down f lo n = Some x -> exists i, lo <= i <= n /\ f i = Some x.
Proof.
  induction n as [|n IH]; intros Hlo H; simpl in H; destruct (f _) eqn:E.
  - injection H as <-. exists 0. split; [lia | exact E].
  - discriminate.
  - injection H as <-. exists (S n). split; [lia | exact E].
  - destruct (lo <=? n) eqn:L; [|discriminate]. apply Nat.leb_le in L.
    destruct (IH L H) as (i & Hi & Hf). exists i. split; [lia | exact Hf].
Qed.

Lemma lit_mismatch {A} x w ch s c (k : str -> caps -> option A) :
  x <> ch -> mt (RLit (x :: w)) (ch :: s) c k = None.
Proof.
  intros H. cbn [mt prefixb]. unfold ascii_eqb.
  destruct (ascii_dec x ch); [contradiction | reflexivity].
Qed.

Lemma lit_nonword_head {A} x w ch s c (k : str -> caps -> option A) :
  is_word x = false -> is_word ch = true -> mt (RLit (x :: w)) (ch :: s) c k = None.
Proof. intros Hx Hc. apply lit_mismatch. intros ->. congruence. Qed.

Lemma player_exact {A} p t c (k : str -> caps -> option A) :
  1 <= length p <= 16 -> forallb is_word p = true ->
  match t with [] => True | ch :: _ => is_word ch = false end ->
  (forall ch s' c', is_word ch = true -> k (ch :: s') c' = None) ->
  mt PLAYER (p ++ t) c k = k t ((L "player", p) :: c).
Proof.
  intros Hl Hw Ht Hk. unfold PLAYER. cbn [mt].
  rewrite (take_count_prefix is_word 16 p t Hw) by (lia || exact Ht).
  rewrite (proj2 (Nat.ltb_ge (length p) 1)) by lia.
  rewrite first_some_down_only.
  - rewrite drop_app_length, length_app.
    replace (length p + length t - length t) with (length p) by lia.
    rewrite take_app_length. reflexivity.
  - intros i Hi. destruct (lookup_lt_is_Some_2 p i) as [ch Hch]; [lia|].
    rewrite (drop_app_le p t i) by lia. rewrite (drop_S p ch i Hch). simpl app.
    apply Hk. rewrite forallb_forall in Hw. apply Hw.
    apply list_elem_of_In, list_elem_of_lookup_2 with i. exact Hch.
Qed.

Lemma server_line_match {A} tail h m s body (k : str -> caps -> option A) :
  mt (RSeq SERVER_PREFIX tail) (server_line h m s body) [] k
  = mt tail body [(L "time", time_text h m s)] k.
Proof.
  unfold server_line. rewrite mt_seq, (mt_fixed _ ServerFacts.fixed_server_prefix), time_text_eq.
  rewrite ServerFacts.run_prefix
    by (cbn [forallb]; rewrite !is_digit_char by (apply Nat.mod_upper_bound; lia); reflexivity).
  reflexivity.
Qed.

Lemma group_player p c : group (L "player") ((L "player", p) :: c) = p.
Proof. reflexivity. Qed.

Lemma group_time_2 p t c : group (L "time") ((L "player", p) :: (L "time", t) :: c) = t.
Proof. reflexivity. Qed.

Lemma lit_hit {A} w s c (k : str -> caps -> option A) : mt (RLit w) (w ++ s) c k = k s c.
Proof.
  cbn [mt]. rewrite (proj2 (prefixb_spec w (w ++ s))) by eauto.
  rewrite drop_app_length. reflexivity.
Qed.

Lemma alt_lit_hit {A} w r2 s c (k : str -> caps -> option A) x :
  k s c = Some x -> mt (RAlt (RLit w) r2) (w ++ s) c k = Some x.
Proof. intros H. cbn [mt]. rewrite <- (lit_hit w s c k) in H. cbn [mt] in H. rewrite H. reflexivity. Qed.

Lemma alt_lit_miss {A} w r2 s c (k : str -> caps -> option A) :
  prefixb w s = false -> mt (RAlt (RLit w) r2) s c k = mt r2 s c k.
Proof. intros H. cbn [mt]. rewrite H. reflexivity. Qed.

Lemma take_count_none_prefix p w t :
  forallb p w = true -> match t with [] => True | ch :: _ => p ch = false end ->
  take_count p None (w ++ t) = length w.
Proof.
  induction w as [|c w IH]; intros Hw Ht; simpl in *.
  - destruct t as [|ch t]; [reflexivity|]. simpl. rewrite Ht. reflexivity.
  - apply andb_true_iff in Hw as [Hc Hw]. rewrite Hc, IH by assumption. reflexivity.
Qed.

Lemma group_capture (s t : str) : firstn (length (s ++ t) - length t) (s ++ t) = s.
Proof. rewrite length_app, Nat.add_sub. apply take_app_length. Qed.

Lemma advancement_rest {A} adv tail c (k : str -> caps -> option A) :
  1 <= length adv -> forallb not_rbracket adv = true ->
  mt (RSeq (lit " [") (RSeq (RGroup (L "advancement") (RClass not_rbracket 1 None)) (lit "]")))
     (L " [" ++ adv ++ L "]" ++ tail) c k
  = k tail ((L "advancement", adv) :: c).
Proof.
  intros Hl Ha. rewrite mt_seq. unfold lit. rewrite lit_hit, mt_seq, mt_group. cbn [mt].
  rewrite take_count_none_prefix by (exact Ha || reflexivity).
  rewrite (proj2 (Nat.ltb_ge (length adv) 1)) by lia.
  rewrite first_some_down_only.
  - rewrite drop_app_length, group_capture. exact (lit_hit (L "]") tail _ k).
  - intros i Hi. destruct (lookup_lt_is_Some_2 adv i) as [ch Hch]; [lia|].
    rewrite (drop_app_le adv _ i) by lia. rewrite (drop_S adv ch i Hch). simpl app.
    apply lit_mismatch. intros <-. rewrite forallb_forall in Ha.
    assert (Hin : In "]"%char adv)
      by (apply list_elem_of_In, list_elem_of_lookup_2 with i; exact Hch).
    apply Ha in Hin. discriminate Hin.
Qed.

Lemma take_count_all p w : forallb p w = true -> take_count p None w = length w.
Proof. intros H. rewrite <- (app_nil_r w) at 1. apply take_count_none_prefix; [exact H | exact I]. Qed.

Lemma dotstar_all {A} nm msg c (k : str -> caps -> option A) x :
  forallb not_newline msg = true -> k [] ((nm, msg) :: c) = Some x ->
  mt (RGroup nm dotstar) msg c k = Some x.
Proof.
  intros Hm Hk. rewrite mt_group. unfold dotstar. cbn [mt].
  rewrite take_count_all by exact Hm. cbn [Nat.ltb Nat.leb].
  apply first_some_down_hit. rewrite drop_all. cbn [length].
  rewrite Nat.sub_0_r, firstn_all. exact Hk.
Qed.

Lemma lit_cons {A} x w s c (k : str -> caps -> option A) :
  mt (RLit (x :: w)) (x :: s) c k = mt (RLit w) s c k.
Proof.
  cbn [mt prefixb]. replace (ascii_eqb x x) with true
    by (unfold ascii_eqb; destruct (ascii_dec x x); congruence).
  reflexivity.
Qed.

Lemma lit_miss {A} w s c (k : str -> caps -> option A) :
  prefixb w s = false -> mt (RLit w) s c k = None.
Proof. intros H. cbn [mt]. rewrite H. reflexivity. Qed.

Ltac after_player := let H := fresh in intros ? ? ? H; cbn [seqs]; rewrite ?mt_seq;
  apply lit_nonword_head; [reflexivity | exact H].

Lemma advancement_match h m s p kind adv tail :
  1 <= length p <= 16 -> forallb is_word p = true -> In kind ADVANCEMENT_KINDS ->
  1 <= length adv -> forallb not_rbracket adv = true ->
  re_match ADVANCEMENT_FORMAT
    (server_line h m s (p ++ L " has " ++ kind ++ L " [" ++ adv ++ L "]" ++ tail))
  = Some (tail, [(L "advancement", adv); (L "type", kind); (L "player", p);
                 (L "time", time_text h m s)]).
Proof.
  intros Hl Hw Hk Hal Ha. unfold re_match, ADVANCEMENT_FORMAT.
  rewrite server_line_match. cbn [seqs]. rewrite mt_seq.
  rewrite player_exact by (assumption || reflexivity || after_player).
  rewrite mt_seq. unfold lit at 1. rewrite lit_hit, mt_seq, mt_group.
  unfold lit at 1 2 3.
  destruct Hk as [<-|[<-|[<-|[]]]].
  - apply alt_lit_hit. rewrite group_capture. apply advancement_rest; assumption.
  - rewrite alt_lit_miss by reflexivity.
    apply alt_lit_hit. rewrite group_capture. apply advancement_rest; assumption.
  - rewrite alt_lit_miss by reflexivity. rewrite alt_lit_miss by reflexivity.
    unfold lit. rewrite lit_hit, group_capture. apply advancement_rest; assumption.
Qed.

Lemma message_match h m s p msg :
  1 <= length p <= 16 -> forallb is_word p = true -> forallb not_newline msg = true ->
  re_match MESSAGE_FORMAT (server_line h m s (L "<" ++ p ++ L "> " ++ msg))
  = Some ([], [(L "message", msg); (L "player", p); (L "time", time_text h m s)]).
Proof.
  intros Hl Hw Hm. unfold re_match, MESSAGE_FORMAT.
  rewrite server_line_match. cbn [seqs]. rewrite mt_seq. unfold lit at 1.
  rewrite lit_hit, mt_seq.
  rewrite player_exact by (assumption || reflexivity || after_player).
  rewrite mt_seq. unfold lit. rewrite lit_hit.
  apply dotstar_all; [exact Hm | reflexivity].
Qed.

Lemma death_match h m s p cause :
  1 <= length p <= 16 -> forallb is_word p = true -> forallb not_newline cause = true ->
  re_match DEATH_FORMAT (server_line h m s (p ++ L " " ++ cause))
  = Some ([], [(L "cause", cause); (L "player", p); (L "time", time_text h m s)]).
Proof.
  intros Hl Hw Hc. unfold re_match, DEATH_FORMAT.
  rewrite server_line_match. cbn [seqs]. rewrite mt_seq.
  rewrite player_exact by (assumption || reflexivity || after_player).
  rewrite mt_seq. unfold lit. rewrite lit_hit.
  apply dotstar_all; [exact Hc | reflexivity].
Qed.

End LineFacts.
Import LineFacts.

Module EventFacts.

Lemma time_iso_bounds t tm :
  time_fromisoformat t = Ok tm -> hour tm < 24 /\ minute tm < 60 /\ second tm < 60.
Proof.
  unfold time_fromisoformat. intros H.
  do 8 (destruct t as [|? t]; [discriminate|]). destruct t; [|discriminate].
  destruct (_ && _ && _); [|discriminate]. cbv zeta in H.
  match type of H with context [if ?b then _ else _] => destruct b eqn:E end; [|discriminate].
  injection H as <-. cbn [hour minute second].
  rewrite !andb_true_iff, !Nat.ltb_lt in E. tauto.
Qed.

Lemma time_iso_err t x : time_fromisoformat t = Err x -> x = ValueError.
Proof.
  unfold time_fromisoformat.
  repeat match goal with
         | |- context [match ?y with _ => _ end] => destruct y
         end; congruence.
Qed.

Lemma take_count_spec p hi s : forallb p (firstn (take_count p hi s) s) = true.
Proof.
  revert hi; induction s as [|c s IH]; intros hi; [reflexivity|].
  destruct hi as [[|h]|]; cbn [take_count]; [reflexivity| |];
    destruct (p c) eqn:E; cbn; rewrite ?E, ?IH; reflexivity.
Qed.

Lemma take_count_len p hi s : take_count p hi s <= length s.
Proof.
  revert hi; induction s as [|c s IH]; intros hi; cbn [take_count length]; [lia|].
  destruct hi as [[|h]|]; [lia| |]; destruct (p c); try lia; specialize (IH (Some h)) || specialize (IH None); lia.
Qed.

Lemma forallb_firstn_le {T} (p : T -> bool) i n (s : list T) :
  i <= n -> forallb p (firstn n s) = true -> forallb p (firstn i s) = true.
Proof.
  intros Hi H. replace (firstn i s) with (firstn i (firstn n s))
    by (rewrite firstn_firstn; f_equal; lia).
  rewrite <- (firstn_skipn i (firstn n s)), forallb_app in H.
  apply andb_prop in H as [H _]. exact H.
Qed.

Lemma player_inv {A} s c (k : str -> caps -> option A) x :
  mt PLAYER s c k = Some x ->
  exists p s', 1 <= length p <= 16 /\ forallb is_word p = true
               /\ k s' ((L "player", p) :: c) = Some x.
Proof.
  unfold PLAYER. rewrite mt_group. cbn [mt].
  destruct (take_count is_word (Some 16) s <? 1) eqn:Hlt; [discriminate|].
  apply Nat.ltb_ge in Hlt. intros H.
  apply first_some_down_range in H as (i & Hi & H); [|exact Hlt].
  pose proof (take_count_le is_word 16 s) as H16.
  pose proof (take_count_len is_word (Some 16) s) as Hs.
  exists (firstn i s), (skipn i s).
  rewrite length_skipn_le in H by lia.
  split; [rewrite length_firstn; lia|]. split; [|exact H].
  apply forallb_firstn_le with (take_count is_word (Some 16) s); [lia|].
  apply take_count_spec.
Qed.

Lemma lit_inv {A} w s c (k : str -> caps -> option A) x :
  mt (RLit w) s c k = Some x -> exists s', k s' c = Some x.
Proof. cbn [mt]. destruct (prefixb w s); [eauto | discriminate]. Qed.

Lemma player_after_prefix r s c s' m :
  mt (RSeq PLAYER r) s c (fun s' c => Some (s', c)) = Some (s', m) ->
  ~ In (L "player") (names r) -> valid_player (group (L "player") m).
Proof.
  rewrite mt_seq. intros H Hn.
  apply player_inv in H as (p & s1 & Hl & Hw & H).
  apply mt_inv in H as (s2 & new & H & _ & F). injection H as _ <-.
  rewrite group_app_notin.
  - rewrite group_player. split; assumption.
  - eapply Forall_impl; [exact F|]. intros [n v] Hin; simpl in *. intros ->. contradiction.
Qed.

Lemma server_player r e s' m :
  re_match (RSeq SERVER_PREFIX (RSeq PLAYER r)) e = Some (s', m) ->
  ~ In (L "player") (names r) -> valid_player (group (L "player") m).
Proof.
  unfold re_match. rewrite mt_seq, (mt_fixed _ ServerFacts.fixed_server_prefix).
  destruct (run_fixed SERVER_PREFIX e []) as [[s1 c1]|]; [|discriminate].
  apply player_after_prefix.
Qed.

Lemma server_lt_player r e s' m :
  re_match (RSeq SERVER_PREFIX (RSeq (lit "<") (RSeq PLAYER r))) e = Some (s', m) ->
  ~ In (L "player") (names r) -> valid_player (group (L "player") m).
Proof.
  unfold re_match. rewrite mt_seq, (mt_fixed _ ServerFacts.fixed_server_prefix).
  destruct (run_fixed SERVER_PREFIX e []) as [[s1 c1]|]; [|discriminate].
  rewrite mt_seq. intros H. apply lit_inv in H as (s2 & H).
  apply player_after_prefix with (1 := H).
Qed.

End EventFacts.
Import EventFacts.
Module NameFacts.

Lemma split_lines_app_nl a b : split_lines (a ++ nl :: b) = split_lines a ++ split_lines b.
Proof.
  induction a as [|c a IH]; cbn [app split_lines].
  - replace (ascii_eqb nl nl) with true by reflexivity. reflexivity.
  - rewrite IH. destruct (ascii_eqb c nl); [reflexivity|].
    destruct (split_lines a) as [|l ls] eqn:E; [exfalso; exact (split_lines_nonempty a E)|].
    reflexivity.
Qed.

Lemma run_fixed_class_inv p n hi s c s' c' :
  run_fixed (RClass p n hi) s c = Some (s', c') ->
  exists w, s = w ++ s' /\ length w = n /\ forallb p w = true /\ c' = c.
Proof.
  cbn [run_fixed]. destruct ((n <=? length s) && forallb p (firstn n s)) eqn:E; [|discriminate].
  intros H; injection H as <- <-. apply andb_true_iff in E as [E1 E2]. apply Nat.leb_le in E1.
  exists (firstn n s). split; [symmetry; apply firstn_skipn|].
  split; [rewrite length_firstn; lia | split; [exact E2 | reflexivity]].
Qed.

Lemma run_fixed_lit_inv w s c s' c' :
  run_fixed (RLit w) s c = Some (s', c') -> s = w ++ s' /\ c' = c.
Proof.
  cbn [run_fixed]. destruct (prefixb w s) eqn:E; [|discriminate].
  intros H; injection H as <- <-. apply prefixb_spec in E as [t ->].
  rewrite drop_app_length. split; reflexivity.
Qed.

Lemma run_fixed_class w s p n hi c :
  length w = n -> forallb p w = true -> run_fixed (RClass p n hi) (w ++ s) c = Some (s, c).
Proof.
  intros Hl Hp. cbn [run_fixed]. subst n.
  rewrite (proj2 (Nat.leb_le _ _)) by (rewrite length_app; lia).
  rewrite take_app_length, Hp, drop_app_length. reflexivity.
Qed.

Lemma run_fixed_lit w s c : run_fixed (RLit w) (w ++ s) c = Some (s, c).
Proof.
  cbn [run_fixed]. rewrite (proj2 (prefixb_spec w (w ++ s))) by eauto.
  rewrite drop_app_length. reflexivity.
Qed.

Lemma run_fixed_seq a b s c :
  run_fixed (RSeq a b) s c
  = match run_fixed a s c with Some (s', c') => run_fixed b s' c' | None => None end.
Proof. reflexivity. Qed.

Lemma mt_lit_inv {A} w s c (k : str -> caps -> option A) x :
  mt (RLit w) s c k = Some x -> exists s', s = w ++ s' /\ k s' c = Some x.
Proof.
  cbn [mt]. destruct (prefixb w s) eqn:E; [|discriminate].
  apply prefixb_spec in E as [t ->]. rewrite drop_app_length. eauto.
Qed.

Lemma mt_class_inv {A} p lo s c (k : str -> caps -> option A) x :
  mt (RClass p lo None) s c k = Some x ->
  exists i, lo <= i <= length s /\ forallb p (firstn i s) = true /\ k (skipn i s) c = Some x.
Proof.
  cbn [mt]. destruct (take_count p None s <? lo) eqn:Hlt; [discriminate|].
  apply Nat.ltb_ge in Hlt. intros H.
  apply first_some_down_range in H as (i & Hi & H); [|exact Hlt].
  pose proof (EventFacts.take_count_len p None s).
  exists i. split; [lia|]. split; [|exact H].
  apply EventFacts.forallb_firstn_le with (take_count p None s); [lia|].
  apply EventFacts.take_count_spec.
Qed.

Lemma date_part_run Y M D r :
  length Y = 4 -> length M = 2 -> length D = 2 -> forallb is_digit (Y ++ M ++ D) = true ->
  run_fixed DATE_PART (Y ++ L "-" ++ M ++ L "-" ++ D ++ r) [] = Some (r, []).
Proof.
  intros LY LM LD H. rewrite !forallb_app in H.
  apply andb_prop in H as [HY H]. apply andb_prop in H as [HM HD].
  unfold DATE_PART, digits, lit. cbn [seqs].
  rewrite run_fixed_seq, run_fixed_class by assumption. cbv beta iota.
  rewrite run_fixed_seq, run_fixed_lit. cbv beta iota.
  rewrite run_fixed_seq, run_fixed_class by assumption. cbv beta iota.
  rewrite run_fixed_seq, run_fixed_lit. cbv beta iota.
  apply run_fixed_class; assumption.
Qed.

Lemma date_part_inv s r c :
  run_fixed DATE_PART s [] = Some (r, c) ->
  exists Y M D, s = Y ++ L "-" ++ M ++ L "-" ++ D ++ r /\ c = [] /\
    length Y = 4 /\ length M = 2 /\ length D = 2 /\ forallb is_digit (Y ++ M ++ D) = true.
Proof.
  unfold DATE_PART, digits, lit. cbn [seqs]. intros H.
  apply run_fixed_seq_inv in H as (s1 & c1 & H1 & H).
  apply run_fixed_class_inv in H1 as (Y & -> & LY & HY & ->).
  apply run_fixed_seq_inv in H as (s2 & c2 & H2 & H).
  apply run_fixed_lit_inv in H2 as [-> ->].
  apply run_fixed_seq_inv in H as (s3 & c3 & H3 & H).
  apply run_fixed_class_inv in H3 as (M & -> & LM & HM & ->).
  apply run_fixed_seq_inv in H as (s4 & c4 & H4 & H).
  apply run_fixed_lit_inv in H4 as [-> ->].
  apply run_fixed_class_inv in H as (D & -> & LD & HD & ->).
  exists Y, M, D. split; [reflexivity|]. split; [reflexivity|].
  rewrite !forallb_app, HY, HM, HD. auto.
Qed.

Lemma filename_format :
  LOG_FILENAME_FORMAT
  = RSeq (RGroup (L "date") DATE_PART)
         (RSeq (lit "-") (RSeq (RClass is_digit 1 None) (lit ".log.gz"))).
Proof. reflexivity. Qed.

Lemma date_capture Y M D N :
  (fun i => mt (lit ".log.gz") (drop i (N ++ L ".log.gz"))
     [(L "date", take (length (Y ++ L "-" ++ M ++ L "-" ++ D ++ L "-" ++ N ++ L ".log.gz")
                       - length (L "-" ++ N ++ L ".log.gz"))
                      (Y ++ L "-" ++ M ++ L "-" ++ D ++ L "-" ++ N ++ L ".log.gz"))]
     (fun s' c => match s' with [] => Some c | _ => None end)) (length N)
  = Some [(L "date", Y ++ L "-" ++ M ++ L "-" ++ D)].
Proof.
  cbv beta. rewrite drop_app_length. unfold lit. rewrite <- (app_nil_r (L ".log.gz")) at 2.
  rewrite lit_hit.
  replace (Y ++ L "-" ++ M ++ L "-" ++ D ++ L "-" ++ N ++ L ".log.gz")
    with ((Y ++ L "-" ++ M ++ L "-" ++ D) ++ L "-" ++ N ++ L ".log.gz")
    by (rewrite <- !app_assoc; reflexivity).
  rewrite group_capture. reflexivity.
Qed.

End NameFacts.
Import NameFacts.
Module RunFacts.

Lemma insert_sorted_perm x l : Permutation (insert_sorted x l) (x :: l).
Proof.
  induction l as [|y l IH]; simpl; [reflexivity|].
  destruct (str_ltb x y); [reflexivity|].
  rewrite IH. apply perm_swap.
Qed.


Lemma read_log_world p f w : snd (read_log p f w) = w.
Proof.
  unfold read_log. destruct p as [d|]; [|reflexivity].
  destruct (assoc d (dirs w)) as [fs|]; [destruct (assoc f fs)|]; reflexivity.
Qed.

Lemma process_files_step path f fs stream w :
  process_files path (f :: fs) stream w =
  match date_fromisoformat (file_date_text f) with
  | Err x => (Err x, w)
  | Ok ld =>
      match fst (read_log path f w) with
      | Err x => (Err x, w)
      | Ok log =>
          match process_entries ld (findall LOG_ENTRY_FORMAT log) stream with
          | Err x => (Err x, w)
          | Ok s' => process_files path fs s' (snd (write_csvs s' w))
          end
      end
  end.
Proof.
  cbn [process_files]. unfold mbind, M_bind, lift.
  destruct (date_fromisoformat (file_date_text f)) as [ld|x]; [|reflexivity].
  pose proof (read_log_world path f w) as Hw.
  destruct (read_log path f w) as [[log|x] w1]; cbn [fst snd] in Hw |- *; subst w1;
    [|reflexivity].
  destruct (process_entries ld (findall LOG_ENTRY_FORMAT log) stream) as [s'|x]; [|reflexivity].
  rewrite write_csvs_eq. reflexivity.
Qed.


Lemma entries_app_err d es1 e es2 s s1 x :
  process_entries d es1 s = Ok s1 -> classify e d = Err x ->
  process_entries d (es1 ++ e :: es2) s = Err x.
Proof.
  revert s; induction es1 as [|e' es IH]; intros s H Hc; cbn [process_entries app] in H |- *.
  - injection H as <-. rewrite Hc. reflexivity.
  - destruct (classify e' d) as [[ev|]|y]; [exact (IH _ H Hc) | exact (IH _ H Hc) | discriminate].
Qed.

Lemma process_files_app path fs0 fs : forall stream w,
  process_files path (fs0 ++ fs) stream w =
  match process_files path fs0 stream w with
  | (Ok s, w1) => process_files path fs s w1
  | (Err x, w1) => (Err x, w1)
  end.
Proof.
  induction fs0 as [|f fs0 IH]; intros stream w; [reflexivity|].
  rewrite <- app_comm_cons, !process_files_step.
  destruct (date_fromisoformat _) as [ld|x]; [|reflexivity].
  destruct (fst (read_log path f w)) as [log|x]; [|reflexivity].
  destruct (process_entries _ _ _) as [s'|x]; [apply IH | reflexivity].
Qed.

End RunFacts.
Import RunFacts.

Ltac no_time_group := let H := fresh in intros H; simpl in H; intuition discriminate.

(** ** Claims about classification *)

(** C6: for every well-formed join line (a valid time of day [h:m:s], the
    server prefix, a player token of 1 to 16 word characters, then
    [joined the game]) and every date, classification returns a join
    [PlayerJoinLeave] whose player is the token and whose time is the date
    combined with the line's time. *)
Theorem join_line_classified (d : date) (h m s : nat) (p : str) :
  h < 24 -> m < 60 -> s < 60 -> 1 <= length p <= 16 -> forallb is_word p = true ->
  classify (join_line h m s p) d
  = Ok (Some (PlayerJoinLeave (combine d (mktime h m s)) p (L "join"))).
Proof.
  intros Hh Hm Hs Hl Hw. unfold classify. rewrite join_line_match by assumption.
  change (group (L "time") [(L "player", p); (L "time", time_text h m s)])
    with (time_text h m s).
  change (group (L "player") [(L "player", p); (L "time", time_text h m s)]) with p.
  rewrite time_text_parse by assumption. reflexivity.
Qed.

Lemma join_line_classified_witness :
  join_line 14 22 1 (L "Steve") = srv "Steve joined the game"
  /\ classify (join_line 14 22 1 (L "Steve")) d20240305
     = Ok (Some (PlayerJoinLeave (combine d20240305 (mktime 14 22 1)) (L "Steve") (L "join"))).
Proof.
  split; [reflexivity|].
  apply join_line_classified; [lia | lia | lia | simpl; lia | reflexivity].
Defined.

(** C5: whenever the chat pattern matches an entry, the death-fallback
    pattern does not, and no classification of the entry is a death. *)
Theorem chat_never_death (e : str) :
  re_match MESSAGE_FORMAT e <> None ->
  re_match DEATH_FORMAT e = None
  /\ (forall d t p x, classify e d <> Ok (Some (PlayerDeath t p x))).
Proof.
  intros H. destruct (message_prefix e H) as (t & c1 & E).
  assert (HD : re_match DEATH_FORMAT e = None) by exact (lt_no_player e t c1 _ E).
  split; [exact HD|]. intros d t' p x.
  assert (HJ : re_match JOIN_FORMAT e = None) by exact (lt_no_player e t c1 _ E).
  assert (HL : re_match LEAVE_FORMAT e = None) by exact (lt_no_player e t c1 _ E).
  assert (HA : re_match ADVANCEMENT_FORMAT e = None) by exact (lt_no_player e t c1 _ E).
  unfold classify. rewrite HJ, HL, HA, HD.
  destruct (re_match MESSAGE_FORMAT e) as [[r m]|]; [|contradiction].
  unfold mbind, result_bind. destruct (time_fromisoformat _); discriminate.
Qed.

Lemma chat_never_death_witness :
  re_match MESSAGE_FORMAT (srv "<Steve> hello world") <> None
  /\ re_match DEATH_FORMAT (srv "<Steve> hello world") = None.
Proof.
  assert (H : re_match MESSAGE_FORMAT (srv "<Steve> hello world") <> None)
    by (vm_compute; discriminate).
  split; [exact H | exact (proj1 (chat_never_death _ H))].
Defined.

(** C4 (counterexample): [Done] is on the denylist and is the token the
    death-fallback pattern captures, yet the entry is a join event, since the
    join pattern is tried first. *)
Lemma denylisted_token_joins :
  option_map (fun rm => member (group (L "player") (snd rm)) NOT_PLAYERS)
    (re_match DEATH_FORMAT done_join) = Some true
  /\ classify done_join d20240305
     = Ok (Some (PlayerJoinLeave (combine d20240305 (mktime 14 22 1)) (L "Done") (L "join"))).
Proof. split; vm_compute; reflexivity. Qed.

(** C4 (amended): an entry that the join, leave and advancement patterns do
    not match, and whose death-fallback token is on the denylist, yields no
    event (and its time is not parsed). *)
Theorem denylisted_death_dropped (e : str) (d : date) (r : str) (m : caps) :
  re_match JOIN_FORMAT e = None -> re_match LEAVE_FORMAT e = None ->
  re_match ADVANCEMENT_FORMAT e = None -> re_match DEATH_FORMAT e = Some (r, m) ->
  member (group (L "player") m) NOT_PLAYERS = true ->
  classify e d = Ok None.
Proof.
  intros H1 H2 H3 H4 H5. unfold classify. rewrite H1, H2, H3, H4. cbv zeta.
  rewrite H5. reflexivity.
Qed.

Lemma denylisted_death_dropped_witness :
  classify (srv "Loading dimension data") d20240305 = Ok None.
Proof.
  destruct (re_match DEATH_FORMAT (srv "Loading dimension data")) as [[r m]|] eqn:E.
  - apply (denylisted_death_dropped _ _ r m); [vm_compute; reflexivity .. | exact E |].
    vm_compute in E. injection E as _ <-. vm_compute. reflexivity.
  - vm_compute in E. discriminate.
Defined.

(** C1 (counterexample): a join entry at 25:00:00 raises [ValueError]; the
    run stops there, before the valid join after it, and writes nothing. *)
Lemma invalid_time_aborts_run :
  classify bad_time_join d20240305 = Err ValueError
  /\ fst (main w_bad_time) = Err ValueError
  /\ snd (main w_bad_time) = w_bad_time.
Proof. split; [|split]; vm_compute; reflexivity. Qed.

(** C1 (amended): when the time field of an entry is not a valid time of
    day, classification raises [ValueError] unless it drops the entry without
    parsing the time: no pattern matches, or the death-fallback pattern
    selects it with a denylisted token.  The [ValueError] is not caught: in
    any run, when the entries of a log file are reached through the earlier
    files and entries without error, such an entry ends the whole run with
    [ValueError] in the world the earlier files left.  No later entry or file
    is processed and nothing more is written. *)
Theorem invalid_time_raises (e : str) (d : date) :
  time_fromisoformat (time_field e) = Err ValueError ->
  (classify e d = Err ValueError
   \/ (classify e d = Ok None
       /\ re_match JOIN_FORMAT e = None /\ re_match LEAVE_FORMAT e = None
       /\ re_match ADVANCEMENT_FORMAT e = None
       /\ ((exists r m, re_match DEATH_FORMAT e = Some (r, m)
                        /\ member (group (L "player") m) NOT_PLAYERS = true)
           \/ (re_match DEATH_FORMAT e = None /\ re_match MESSAGE_FORMAT e = None))))
  /\ (forall w files fs0 f fs s w1 text es1 es2 s1,
        classify e d = Err ValueError ->
        fst (listdir (LOG_DIRECTORY w) w) = Ok files ->
        sort (List.filter is_log_file files) = fs0 ++ f :: fs ->
        process_files (LOG_DIRECTORY w) fs0 [] w = (Ok s, w1) ->
        date_fromisoformat (file_date_text f) = Ok d ->
        fst (read_log (LOG_DIRECTORY w) f w1) = Ok text ->
        findall LOG_ENTRY_FORMAT text = es1 ++ e :: es2 ->
        process_entries d es1 s = Ok s1 ->
        main w = (Err ValueError, w1)).
Proof.
  intros Ht. split.
  2:{ intros w files fs0 f fs s w1 text es1 es2 s1 Hc Hl Hs H0 Hd Hr Hf He.
      rewrite main_unfold, Hl, Hs, process_files_app, H0, process_files_step, Hd, Hr, Hf.
      rewrite (entries_app_err _ _ _ _ _ _ _ He Hc). reflexivity. }
  unfold classify.
  destruct (re_match JOIN_FORMAT e) as [[r m]|] eqn:E1.
  { left. pose proof (ServerFacts.server_time _ _ _ _ E1) as G.
    rewrite G, Ht by no_time_group. reflexivity. }
  destruct (re_match LEAVE_FORMAT e) as [[r m]|] eqn:E2.
  { left. pose proof (ServerFacts.server_time _ _ _ _ E2) as G.
    rewrite G, Ht by no_time_group. reflexivity. }
  destruct (re_match ADVANCEMENT_FORMAT e) as [[r m]|] eqn:E3.
  { left. pose proof (ServerFacts.server_time _ _ _ _ E3) as G.
    rewrite G, Ht by no_time_group. reflexivity. }
  destruct (re_match DEATH_FORMAT e) as [[r m]|] eqn:E4.
  { cbv zeta. destruct (member (group (L "player") m) NOT_PLAYERS) eqn:Em.
    - right. repeat split; auto. left. eauto.
    - left. pose proof (ServerFacts.server_time _ _ _ _ E4) as G.
      rewrite G, Ht by no_time_group. reflexivity. }
  destruct (re_match MESSAGE_FORMAT e) as [[r m]|] eqn:E5.
  { left. pose proof (ServerFacts.server_time _ _ _ _ E5) as G.
    rewrite G, Ht by no_time_group. reflexivity. }
  right. repeat split; auto.
Qed.

Lemma invalid_time_raises_witness :
  time_fromisoformat (time_field bad_time_join) = Err ValueError
  /\ classify bad_time_join (mkdate 2024 1 1) = Err ValueError
  /\ main w_bad_time = (Err ValueError, w_bad_time).
Proof.
  assert (H : time_fromisoformat (time_field bad_time_join) = Err ValueError)
    by (vm_compute; reflexivity).
  assert (Hc : classify bad_time_join (mkdate 2024 1 1) = Err ValueError).
  { destruct (proj1 (invalid_time_raises bad_time_join (mkdate 2024 1 1) H)) as [E | [E _]];
      [exact E | vm_compute in E; discriminate]. }
  split; [exact H | split; [exact Hc|]].
  apply (proj2 (invalid_time_raises bad_time_join (mkdate 2024 1 1) H)
           w_bad_time [L "2024-01-01-1.log.gz"] [] (L "2024-01-01-1.log.gz") []
           [] w_bad_time ([nl] ++ bad_time_join ++ [nl] ++ srv "Alex joined the game")
           [] [srv "Alex joined the game"] []);
    first [exact Hc | vm_compute; reflexivity].
Defined.

(** C2 (counterexample): an entry followed by a continuation line [b].  The
    split keeps only the first physical line of the entry, so the entry with
    its continuation attached is not among the entries, and [b] is lost. *)
Lemma continuation_line_lost :
  findall LOG_ENTRY_FORMAT two_line_log = [L "[00:00:01] a"] /\
  ~ In (L "[00:00:01] a" ++ [nl] ++ L "b") (findall LOG_ENTRY_FORMAT two_line_log).
Proof.
  assert (E : findall LOG_ENTRY_FORMAT two_line_log = [L "[00:00:01] a"])
    by (vm_compute; reflexivity).
  rewrite E. split; [reflexivity|]. intros [H|[]]. vm_compute in H. discriminate H.
Qed.

(** C2 (amended): the entries of a decoded text are exactly its physical
    lines that come right after a newline and begin with the [[HH:MM:SS] ]
    marker, in order, each one cut at the next newline.  Lines without the
    marker, continuation lines included, are dropped and are not attached to
    any entry. *)
Theorem entries_are_marked_lines (s : str) :
  findall LOG_ENTRY_FORMAT s = List.filter is_marked (tl (split_lines s)).
Proof. unfold findall. apply findall_lines. lia. Qed.

(** C9: when the decoded text begins with a line that starts with the
    [[HH:MM:SS] ] marker at position zero, with no newline before it, the
    split leaves that line out.  The entries are those of the rest of the
    text, so the line yields no event. *)
Theorem first_entry_dropped (line rest : str) (d : date) (acc : list event) :
  is_marked line = true -> forallb not_newline line = true ->
  findall LOG_ENTRY_FORMAT (line ++ rest) = findall LOG_ENTRY_FORMAT rest /\
  process_entries d (findall LOG_ENTRY_FORMAT (line ++ rest)) acc =
    process_entries d (findall LOG_ENTRY_FORMAT rest) acc.
Proof.
  intros _ Hl. rewrite findall_skip by exact Hl. split; reflexivity.
Qed.

Lemma first_entry_dropped_witness :
  is_marked (srv "Steve joined the game") = true /\
  forallb not_newline (srv "Steve joined the game") = true /\
  classify (srv "Steve joined the game") d20240305 <> Ok None /\
  (findall LOG_ENTRY_FORMAT (srv "Steve joined the game" ++ []) = findall LOG_ENTRY_FORMAT [] /\
   process_entries d20240305 (findall LOG_ENTRY_FORMAT (srv "Steve joined the game" ++ [])) [] =
     process_entries d20240305 (findall LOG_ENTRY_FORMAT []) []).
Proof.
  split; [vm_compute; reflexivity|]. split; [vm_compute; reflexivity|]. split.
  - vm_compute. discriminate.
  - apply (first_entry_dropped (srv "Steve joined the game") [] d20240305 []);
      vm_compute; reflexivity.
Defined.

(** C10: when the log directory lists no file whose name fully matches
    [YYYY-MM-DD-N.log.gz], the run ends with no events and leaves the world
    unchanged.  The output directory is not created and no output file is
    written. *)
Theorem no_log_files_no_output (w : World) (files : list str) :
  fst (listdir (LOG_DIRECTORY w) w) = Ok files ->
  forallb (fun f => negb (is_log_file f)) files = true ->
  main w = (Ok [], w).
Proof.
  intros Hl Hn. rewrite main_unfold, Hl, filter_none_log by exact Hn. reflexivity.
Qed.

Lemma no_log_files_no_output_witness :
  fst (listdir (LOG_DIRECTORY w_no_logs) w_no_logs) = Ok [L "notes.txt"]
  /\ forallb (fun f => negb (is_log_file f)) [L "notes.txt"] = true
  /\ main w_no_logs = (Ok [], w_no_logs).
Proof.
  assert (H1 : fst (listdir (LOG_DIRECTORY w_no_logs) w_no_logs) = Ok [L "notes.txt"])
    by reflexivity.
  assert (H2 : forallb (fun f => negb (is_log_file f)) [L "notes.txt"] = true)
    by (vm_compute; reflexivity).
  split; [exact H1 | split; [exact H2 | exact (no_log_files_no_output w_no_logs _ H1 H2)]].
Defined.

(** C8: exporting a second time with the same events leaves the world
    exactly as the first export left it.  Each of the four files is
    overwritten with the same text, and the export succeeds again. *)
Theorem export_idempotent (evs : list event) (w : World) :
  write_csvs evs (snd (write_csvs evs w)) = (Ok tt, snd (write_csvs evs w)).
Proof.
  rewrite !write_csvs_eq. simpl. f_equal. f_equal.
  apply map_eq. intros i. rewrite !lookup_insert. repeat case_decide; congruence.
Qed.

(** C3 (counterexample): with [LOG_DIRECTORY] unset, [os.listdir(None)]
    lists the working directory.  When that holds no log file, the run
    succeeds with no events instead of failing. *)
Lemma unset_lists_cwd : main w_unset = (Ok [], w_unset).
Proof. vm_compute. reflexivity. Qed.

(** C3 (amended): a [LOG_DIRECTORY] naming a missing directory makes the
    run fail at once with [FileNotFoundError], writing nothing.  An unset
    [LOG_DIRECTORY] never writes anything.  The run succeeds with no events
    when no name in the working directory matches the log pattern.
    Otherwise it fails on the first matching name in sorted order: with
    [ValueError] when its date is not a valid date, and else with
    [TypeError] from [os.path.join(None, _)]. *)
Theorem config_errors (w : World) :
  (forall d, LOG_DIRECTORY w = Some d -> assoc d (dirs w) = None ->
             main w = (Err FileNotFoundError, w)) /\
  (LOG_DIRECTORY w = None ->
     snd (main w) = w /\
     (forallb (fun f => negb (is_log_file f)) (cwd_listing w) = true -> main w = (Ok [], w)) /\
     (forall f fs, sort (List.filter is_log_file (cwd_listing w)) = f :: fs ->
        main w = (match date_fromisoformat (file_date_text f) with
                  | Ok _ => Err TypeError
                  | Err _ => Err ValueError
                  end, w))).
Proof.
  split.
  - intros d Hd Ha. rewrite main_unfold. unfold listdir. rewrite Hd, Ha. reflexivity.
  - intros Hd. rewrite main_unfold. unfold listdir. rewrite Hd. cbn [fst].
    assert (Hf : forall f fs, sort (List.filter is_log_file (cwd_listing w)) = f :: fs ->
              process_files None (f :: fs) [] w
              = (match date_fromisoformat (file_date_text f) with
                 | Ok _ => Err TypeError
                 | Err _ => Err ValueError
                 end, w)).
    { intros f fs _. rewrite process_files_step.
      destruct (date_fromisoformat (file_date_text f)) eqn:Hdt; [reflexivity|].
      apply date_iso_err in Hdt as ->. reflexivity. }
    split; [|split].
    + destruct (sort (List.filter is_log_file (cwd_listing w))) as [|f fs] eqn:Hs;
        [reflexivity|].
      rewrite (Hf f fs eq_refl). reflexivity.
    + intros Hn. rewrite filter_none_log by exact Hn. reflexivity.
    + intros f fs Hs. rewrite Hs. apply (Hf f fs Hs).
Qed.

Lemma config_errors_witness :
  main w_missing = (Err FileNotFoundError, w_missing)
  /\ main w_unset = (Ok [], w_unset)
  /\ main w_cwd_bad_date = (Err ValueError, w_cwd_bad_date)
  /\ main w_cwd_log = (Err TypeError, w_cwd_log).
Proof.
  split; [apply (proj1 (config_errors w_missing) (L "logs")); reflexivity|].
  split; [apply (proj1 (proj2 (proj2 (config_errors w_unset) eq_refl))); reflexivity|].
  split.
  - etransitivity;
      [apply (proj2 (proj2 (proj2 (config_errors w_cwd_bad_date) eq_refl))
                (L "2024-00-01-1.log.gz") [L "2024-12-01-1.log.gz"]); vm_compute; reflexivity
      | vm_compute; reflexivity].
  - etransitivity;
      [apply (proj2 (proj2 (proj2 (config_errors w_cwd_log) eq_refl))
                (L "2024-01-02-1.log.gz") []); vm_compute; reflexivity
      | vm_compute; reflexivity].
Defined.

(** C7: in the event sequence of a successful run, an event whose date is
    earlier than another's comes at a strictly smaller position.  So all
    events of an earlier-dated log file precede all events of a later-dated
    one, whatever the sizes of the files. *)
Theorem events_in_date_order (w w' : World) (evs : list event) (i j : nat) (e1 e2 : event) :
  main w = (Ok evs, w') -> evs !! i = Some e1 -> evs !! j = Some e2 ->
  date_lt (ev_date e1) (ev_date e2) -> i < j.
Proof.
  intros H Hi Hj Hlt. apply main_sorted in H.
  destruct (lt_eq_lt_dec i j) as [[Lt| ->]|Gt]; [exact Lt| |].
  - rewrite Hi in Hj. injection Hj as ->. exfalso. exact (date_lt_irrefl _ Hlt).
  - exfalso. exact (ssorted_lookup ev_le evs j i e2 e1 H Hj Hi Gt Hlt).
Qed.

Lemma events_in_date_order_witness :
  main w_ex = (Ok [ev_steve; ev_alex], snd (main w_ex))
  /\ [ev_steve; ev_alex] !! 0 = Some ev_steve /\ [ev_steve; ev_alex] !! 1 = Some ev_alex
  /\ date_lt (ev_date ev_steve) (ev_date ev_alex) /\ 0 < 1.
Proof.
  assert (H : main w_ex = (Ok [ev_steve; ev_alex], snd (main w_ex)))
    by (vm_compute; reflexivity).
  assert (Hlt : date_lt (ev_date ev_steve) (ev_date ev_alex))
    by (unfold date_lt; simpl; lia).
  split; [exact H|]. split; [reflexivity|]. split; [reflexivity|]. split; [exact Hlt|].
  exact (events_in_date_order w_ex (snd (main w_ex)) [ev_steve; ev_alex] 0 1
           ev_steve ev_alex H eq_refl eq_refl Hlt).
Defined.

(** ** Further properties of the code *)

(** X1: the [time] column that the CSV writer prints for a valid datetime
    parses back: its first ten characters give the date and the text after
    the space gives the time. *)
Theorem str_datetime_roundtrip (dt : datetime) :
  let d := dt_date dt in let t := dt_time dt in
  1 <= year d <= 9999 -> 1 <= month d <= 12 -> 1 <= day d <= days_in_month (year d) (month d) ->
  hour t < 24 -> minute t < 60 -> second t < 60 ->
  date_fromisoformat (firstn 10 (str_datetime dt)) = Ok d /\
  time_fromisoformat (skipn 11 (str_datetime dt)) = Ok t.
Proof.
  destruct dt as [[y m d] [h mi s]]; cbn zeta; cbn [dt_date dt_time year month day hour minute second].
  intros Hy Hm Hd Hh Hmi Hs.
  assert (Hdm : days_in_month y m <= 31) by (apply days_in_month_le).
  rewrite str_datetime_split. cbn [dt_date dt_time year month day hour minute second].
  rewrite (take_app_length' (date_text y m d)) by (symmetry; apply length_date_text).
  rewrite app_assoc, (drop_app_length' (date_text y m d ++ L " "))
    by (rewrite length_app, length_date_text; reflexivity).
  split; [apply date_text_valid; lia | apply time_text_parse; lia].
Qed.

Lemma str_datetime_roundtrip_witness :
  date_fromisoformat (firstn 10 (str_datetime (combine d20240305 (mktime 14 22 1))))
  = Ok d20240305 /\
  time_fromisoformat (skipn 11 (str_datetime (combine d20240305 (mktime 14 22 1))))
  = Ok (mktime 14 22 1).
Proof.
  apply (str_datetime_roundtrip (combine d20240305 (mktime 14 22 1)));
    [split; [cbn; lia | apply Nat.leb_le; reflexivity] | cbn; lia ..].
Defined.

(** X2: a dedicated-server line at a valid time whose message is a player
    token of 1 to 16 word characters followed by [left the game] is
    classified as a [leave] event of that player at the log date and the
    line's time. *)
Theorem leave_line_classified (d : date) (h m s : nat) (p : str) :
  h < 24 -> m < 60 -> s < 60 -> 1 <= length p <= 16 -> forallb is_word p = true ->
  classify (server_line h m s (p ++ L " left the game")) d
  = Ok (Some (PlayerJoinLeave (combine d (mktime h m s)) p (L "leave"))).
Proof.
  intros Hh Hm Hs Hl Hw. unfold classify, re_match, JOIN_FORMAT, LEAVE_FORMAT.
  rewrite !server_line_match, !mt_seq.
  rewrite !player_exact by (assumption || reflexivity || after_player).
  assert (E1 : forall c (k : str -> caps -> option (str * caps)),
            mt (lit " joined the game") (L " left the game") c k = None) by reflexivity.
  assert (E2 : forall c (k : str -> caps -> option (str * caps)),
            mt (lit " left the game") (L " left the game") c k = k [] c) by reflexivity.
  rewrite E1, E2. cbv beta iota.
  rewrite group_time_2, group_player, time_text_parse by assumption. reflexivity.
Qed.

Lemma leave_line_classified_witness :
  server_line 14 22 1 (L "Steve" ++ L " left the game") = srv "Steve left the game" /\
  classify (server_line 14 22 1 (L "Steve" ++ L " left the game")) d20240305
  = Ok (Some (PlayerJoinLeave (combine d20240305 (mktime 14 22 1)) (L "Steve") (L "leave"))).
Proof.
  split; [vm_compute; reflexivity|].
  apply leave_line_classified; [lia | lia | lia | simpl; lia | reflexivity].
Defined.

(** X3: a dedicated-server line at a valid time whose message is a player
    token, [has], one of the three advancement phrases and a nonempty
    bracketed name without [\]] is classified as an advancement event of
    that player with that name, whatever follows the closing bracket. *)
Theorem advancement_line_classified (d : date) (h m s : nat) (p kind adv tail : str) :
  h < 24 -> m < 60 -> s < 60 -> 1 <= length p <= 16 -> forallb is_word p = true ->
  In kind ADVANCEMENT_KINDS -> 1 <= length adv -> forallb not_rbracket adv = true ->
  classify (server_line h m s (p ++ L " has " ++ kind ++ L " [" ++ adv ++ L "]" ++ tail)) d
  = Ok (Some (PlayerAdvancement (combine d (mktime h m s)) p adv)).
Proof.
  intros Hh Hm Hs Hl Hw Hk Hal Ha. unfold classify.
  rewrite advancement_match by assumption.
  unfold re_match, JOIN_FORMAT, LEAVE_FORMAT.
  rewrite !server_line_match, !mt_seq.
  rewrite !player_exact by (assumption || reflexivity || after_player).
  assert (E : forall w r c (k : str -> caps -> option (str * caps)),
             w = L " joined the game" \/ w = L " left the game" ->
             mt (RLit w) (L " has " ++ r) c k = None)
    by (intros w r c k [-> | ->]; reflexivity).
  unfold lit. rewrite !E by auto. cbv beta iota.
  change (group (L "time") [(L "advancement", adv); (L "type", kind); (L "player", p);
                             (L "time", time_text h m s)]) with (time_text h m s).
  change (group (L "player") [(L "advancement", adv); (L "type", kind); (L "player", p);
                               (L "time", time_text h m s)]) with p.
  change (group (L "advancement") [(L "advancement", adv); (L "type", kind); (L "player", p);
                                    (L "time", time_text h m s)]) with adv.
  rewrite time_text_parse by assumption. reflexivity.
Qed.

Lemma advancement_line_classified_witness :
  server_line 14 22 1 (L "Steve" ++ L " has " ++ L "made the advancement" ++ L " ["
                       ++ L "Stone Age" ++ L "]" ++ [])
  = srv "Steve has made the advancement [Stone Age]" /\
  classify (server_line 14 22 1 (L "Steve" ++ L " has " ++ L "made the advancement" ++ L " ["
                                 ++ L "Stone Age" ++ L "]" ++ [])) d20240305
  = Ok (Some (PlayerAdvancement (combine d20240305 (mktime 14 22 1)) (L "Steve") (L "Stone Age"))).
Proof.
  split; [vm_compute; reflexivity|].
  apply advancement_line_classified;
    [lia | lia | lia | simpl; lia | reflexivity | left; reflexivity | simpl; lia | reflexivity].
Defined.

(** X4: a dedicated-server line at a valid time whose message is [<P> text],
    with [P] a player token and [text] free of newlines, is classified as a
    chat message of [P] whose text is [text]. *)
Theorem message_line_classified (d : date) (h m s : nat) (p msg : str) :
  h < 24 -> m < 60 -> s < 60 -> 1 <= length p <= 16 -> forallb is_word p = true ->
  forallb not_newline msg = true ->
  classify (server_line h m s (L "<" ++ p ++ L "> " ++ msg)) d
  = Ok (Some (PlayerMessage (combine d (mktime h m s)) p msg)).
Proof.
  intros Hh Hm Hs Hl Hw Hmsg. unfold classify.
  rewrite message_match by assumption.
  unfold re_match, JOIN_FORMAT, LEAVE_FORMAT, ADVANCEMENT_FORMAT, DEATH_FORMAT.
  rewrite !server_line_match. cbn [seqs]. change (L "<" ++ ?x) with ("<"%char :: x).
  rewrite !ServerFacts.player_not_at_lt. cbv beta iota.
  change (group (L "time") [(L "message", msg); (L "player", p); (L "time", time_text h m s)])
    with (time_text h m s).
  change (group (L "player") [(L "message", msg); (L "player", p); (L "time", time_text h m s)])
    with p.
  change (group (L "message") [(L "message", msg); (L "player", p); (L "time", time_text h m s)])
    with msg.
  rewrite time_text_parse by assumption. reflexivity.
Qed.

Lemma message_line_classified_witness :
  server_line 14 22 1 (L "<" ++ L "Steve" ++ L "> " ++ L "hello world")
  = srv "<Steve> hello world" /\
  classify (server_line 14 22 1 (L "<" ++ L "Steve" ++ L "> " ++ L "hello world")) d20240305
  = Ok (Some (PlayerMessage (combine d20240305 (mktime 14 22 1)) (L "Steve") (L "hello world"))).
Proof.
  split; [vm_compute; reflexivity|].
  apply message_line_classified; [lia | lia | lia | simpl; lia | reflexivity | reflexivity].
Defined.

(** X5: a dedicated-server line at a valid time whose message is a player
    token that is not on the denylist, a space and a newline-free rest that
    does not start with [joined the game], [left the game] or [has ] is
    classified as a death of that player with the rest as its cause. *)
Theorem death_line_classified (d : date) (h m s : nat) (p cause : str) :
  h < 24 -> m < 60 -> s < 60 -> 1 <= length p <= 16 -> forallb is_word p = true ->
  member p NOT_PLAYERS = false -> forallb not_newline cause = true ->
  prefixb (L "joined the game") cause = false -> prefixb (L "left the game") cause = false ->
  prefixb (L "has ") cause = false ->
  classify (server_line h m s (p ++ L " " ++ cause)) d
  = Ok (Some (PlayerDeath (combine d (mktime h m s)) p cause)).
Proof.
  intros Hh Hm Hs Hl Hw Hnp Hc Hj Hlv Hhas. unfold classify.
  rewrite death_match by assumption.
  unfold re_match, JOIN_FORMAT, LEAVE_FORMAT, ADVANCEMENT_FORMAT.
  rewrite !server_line_match. cbn [seqs]. rewrite !mt_seq.
  rewrite !player_exact by (assumption || reflexivity || after_player).
  unfold lit. change (L " " ++ cause) with (" "%char :: cause).
  change (L " joined the game") with (" "%char :: L "joined the game").
  change (L " left the game") with (" "%char :: L "left the game").
  change (L " has ") with (" "%char :: L "has ").
  rewrite !mt_seq, !lit_cons, !lit_miss by assumption. cbv beta iota zeta.
  change (group (L "player") [(L "cause", cause); (L "player", p); (L "time", time_text h m s)])
    with p.
  rewrite Hnp.
  change (group (L "time") [(L "cause", cause); (L "player", p); (L "time", time_text h m s)])
    with (time_text h m s).
  change (group (L "cause") [(L "cause", cause); (L "player", p); (L "time", time_text h m s)])
    with cause.
  rewrite time_text_parse by assumption. reflexivity.
Qed.

Lemma death_line_classified_witness :
  server_line 14 22 1 (L "Steve" ++ L " " ++ L "fell from a high place")
  = srv "Steve fell from a high place" /\
  classify (server_line 14 22 1 (L "Steve" ++ L " " ++ L "fell from a high place")) d20240305
  = Ok (Some (PlayerDeath (combine d20240305 (mktime 14 22 1)) (L "Steve")
                          (L "fell from a high place"))).
Proof.
  split; [vm_compute; reflexivity|].
  apply death_line_classified;
    [lia | lia | lia | simpl; lia | reflexivity | vm_compute; reflexivity
    | reflexivity | reflexivity | reflexivity | reflexivity].
Defined.

(** X6: an entry that does not begin with the dedicated-server INFO prefix
    (another thread, another level such as WARN, or no time stamp) yields no
    event and raises nothing: none of the five patterns can match it. *)
Theorem non_server_line_ignored (e : str) (d : date) :
  run_fixed SERVER_PREFIX e [] = None -> classify e d = Ok None.
Proof.
  intros H. unfold classify, re_match, JOIN_FORMAT, LEAVE_FORMAT, ADVANCEMENT_FORMAT,
    DEATH_FORMAT, MESSAGE_FORMAT.
  rewrite !mt_seq, !(mt_fixed SERVER_PREFIX ServerFacts.fixed_server_prefix), H.
  reflexivity.
Qed.

Lemma non_server_line_ignored_witness :
  classify (L "[14:22:01] [Server thread/WARN] [net.minecraft.server.dedicated.DedicatedServer]: Steve joined the game") d20240305 = Ok None.
Proof. apply non_server_line_ignored. vm_compute. reflexivity. Defined.

(** X7: every event that classification produces carries the log date, a
    valid time of day and a player name of 1 to 16 word characters; a death
    event's player is never on the denylist. *)
Theorem classify_event_wellformed (e : str) (d : date) (ev : event) :
  classify e d = Ok (Some ev) ->
  ev_date ev = d
  /\ hour (dt_time (ev_time ev)) < 24 /\ minute (dt_time (ev_time ev)) < 60
  /\ second (dt_time (ev_time ev)) < 60
  /\ 1 <= length (ev_player ev) <= 16 /\ forallb is_word (ev_player ev) = true
  /\ (forall t p c, ev = PlayerDeath t p c -> member p NOT_PLAYERS = false).
Proof.
  unfold classify, mbind, result_bind.
  destruct (re_match JOIN_FORMAT e) as [[r m]|] eqn:E1;
    [| destruct (re_match LEAVE_FORMAT e) as [[r m]|] eqn:E2;
    [| destruct (re_match ADVANCEMENT_FORMAT e) as [[r m]|] eqn:E3;
    [| destruct (re_match DEATH_FORMAT e) as [[r m]|] eqn:E4;
    [| destruct (re_match MESSAGE_FORMAT e) as [[r m]|] eqn:E5]]]];
    try (intros H; discriminate H); cbv zeta;
    [| | | destruct (member (group (L "player") m) NOT_PLAYERS) eqn:Em;
           [intros H; discriminate H|] |];
    (destruct (time_fromisoformat (group (L "time") m)) as [tm|x] eqn:Et;
       [|intros H; discriminate H]);
    intros H; injection H as <-;
    apply time_iso_bounds in Et as (Th & Tm & Ts);
    cbn [ev_date ev_time ev_player combine dt_date dt_time];
    (split; [reflexivity|]); (split; [exact Th|]); (split; [exact Tm|]); (split; [exact Ts|]).
  - destruct (server_player _ _ _ _ E1) as [Hl Hw]; [simpl; intuition discriminate|].
    split; [exact Hl|]. split; [exact Hw|]. intros ? ? ? Hd; discriminate Hd.
  - destruct (server_player _ _ _ _ E2) as [Hl Hw]; [simpl; intuition discriminate|].
    split; [exact Hl|]. split; [exact Hw|]. intros ? ? ? Hd; discriminate Hd.
  - destruct (server_player _ _ _ _ E3) as [Hl Hw]; [simpl; intuition discriminate|].
    split; [exact Hl|]. split; [exact Hw|]. intros ? ? ? Hd; discriminate Hd.
  - destruct (server_player _ _ _ _ E4) as [Hl Hw]; [simpl; intuition discriminate|].
    split; [exact Hl|]. split; [exact Hw|]. intros ? ? ? Hd; injection Hd as _ <- _. exact Em.
  - destruct (server_lt_player _ _ _ _ E5) as [Hl Hw]; [simpl; intuition discriminate|].
    split; [exact Hl|]. split; [exact Hw|]. intros ? ? ? Hd; discriminate Hd.
Qed.

Lemma classify_event_wellformed_witness :
  classify (srv "Steve joined the game") d20240305
  = Ok (Some (PlayerJoinLeave (combine d20240305 (mktime 14 22 1)) (L "Steve") (L "join")))
  /\ 1 <= length (L "Steve") <= 16.
Proof.
  assert (H : classify (srv "Steve joined the game") d20240305
              = Ok (Some (PlayerJoinLeave (combine d20240305 (mktime 14 22 1)) (L "Steve")
                                          (L "join")))) by (vm_compute; reflexivity).
  split; [exact H|].
  exact (proj1 (proj2 (proj2 (proj2 (proj2 (classify_event_wellformed _ _ _ H)))))).
Defined.

(** X8: classification fails only with [ValueError], and only when the
    entry's time field (characters 1 to 8) is not a valid time of day. *)
Theorem classify_error_time (e : str) (d : date) (x : exn) :
  classify e d = Err x -> x = ValueError /\ time_fromisoformat (time_field e) = Err ValueError.
Proof.
  unfold classify, mbind, result_bind.
  destruct (re_match JOIN_FORMAT e) as [[r m]|] eqn:E1;
    [| destruct (re_match LEAVE_FORMAT e) as [[r m]|] eqn:E2;
    [| destruct (re_match ADVANCEMENT_FORMAT e) as [[r m]|] eqn:E3;
    [| destruct (re_match DEATH_FORMAT e) as [[r m]|] eqn:E4;
    [| destruct (re_match MESSAGE_FORMAT e) as [[r m]|] eqn:E5]]]];
    try (intros H; discriminate H); cbv zeta;
    [| | | destruct (member (group (L "player") m) NOT_PLAYERS) eqn:Em;
           [intros H; discriminate H|] |];
    (destruct (time_fromisoformat (group (L "time") m)) as [tm|y] eqn:Et;
       [intros H; discriminate H|]);
    intros H; injection H as <-;
    pose proof (time_iso_err _ _ Et) as ->; split; try reflexivity; rewrite <- Et;
    f_equal; symmetry; eapply ServerFacts.server_time; eauto; no_time_group.
Qed.

Lemma classify_error_time_witness :
  classify bad_time_join d20240305 = Err ValueError
  /\ time_fromisoformat (time_field bad_time_join) = Err ValueError.
Proof.
  assert (H : classify bad_time_join d20240305 = Err ValueError) by (vm_compute; reflexivity).
  split; [exact H | exact (proj2 (classify_error_time _ _ _ H))].
Defined.

(** X9: the entry loop only appends: run from a nonempty event list it
    gives that list followed by what it gives from the empty list, and it
    fails in the same way. *)
Theorem process_entries_acc (d : date) (es : list str) (acc : list event) :
  process_entries d es acc =
    match process_entries d es [] with Ok s => Ok (acc ++ s) | Err x => Err x end.
Proof.
  revert acc; induction es as [|e es IH]; intros acc; cbn [process_entries].
  - rewrite app_nil_r. reflexivity.
  - destruct (classify e d) as [[ev|]|x]; [| exact (IH acc) | reflexivity].
    rewrite (IH (acc ++ [ev])), (IH ([] ++ [ev])).
    destruct (process_entries d es []); [rewrite <- app_assoc; reflexivity | reflexivity].
Qed.

(** X10: running the entry loop over two lists of entries one after the
    other is the same as running it over their concatenation; an error in
    the first list stops it before the second. *)
Theorem process_entries_concat (d : date) (es1 es2 : list str) (acc : list event) :
  process_entries d (es1 ++ es2) acc =
    match process_entries d es1 acc with Ok s => process_entries d es2 s | Err x => Err x end.
Proof.
  revert acc; induction es1 as [|e es IH]; intros acc; cbn [process_entries app]; [reflexivity|].
  destruct (classify e d) as [[ev|]|x]; [apply IH | apply IH | reflexivity].
Qed.

(** X11: splitting a decoded log at a newline does not change its entries:
    the entries of [a ++ "\n" ++ b] are those of [a] followed by those of
    ["\n" ++ b]. *)
Theorem findall_concat_lines (a b : str) :
  findall LOG_ENTRY_FORMAT (a ++ nl :: b)
  = findall LOG_ENTRY_FORMAT a ++ findall LOG_ENTRY_FORMAT (nl :: b).
Proof.
  unfold findall. rewrite !findall_lines by lia.
  rewrite split_lines_app_nl. cbn [split_lines].
  replace (ascii_eqb nl nl) with true by reflexivity. cbn [tl].
  destruct (split_lines a) as [|l ls] eqn:E; [exfalso; exact (split_lines_nonempty a E)|].
  cbn [tl app]. apply List.filter_app.
Qed.

(** X12: a file name is taken as a log file exactly when it is four digits,
    [-], two digits, [-], two digits, [-], one or more digits and
    [.log.gz], with nothing before or after. *)
Theorem log_file_name (f : str) :
  is_log_file f = true <->
  exists Y M D N, f = Y ++ L "-" ++ M ++ L "-" ++ D ++ L "-" ++ N ++ L ".log.gz"
    /\ length Y = 4 /\ length M = 2 /\ length D = 2 /\ 1 <= length N
    /\ forallb is_digit (Y ++ M ++ D ++ N) = true.
Proof.
  unfold is_log_file, re_fullmatch. rewrite filename_format, mt_seq, mt_group.
  rewrite (mt_fixed DATE_PART eq_refl). split.
  - destruct (run_fixed DATE_PART f []) as [[s1 c1]|] eqn:R; [|discriminate].
    apply date_part_inv in R as (Y & M & D & -> & -> & LY & LM & LD & HYMD).
    destruct (mt _ _ _ _) as [c|] eqn:E; [intros _|discriminate].
    rewrite mt_seq in E. unfold lit at 1 in E.
    apply mt_lit_inv in E as (s2 & -> & E). rewrite mt_seq in E.
    apply mt_class_inv in E as (i & Hi & HN & E).
    unfold lit in E. apply mt_lit_inv in E as (s3 & Hs3 & E).
    destruct s3; [|discriminate].
    exists Y, M, D, (firstn i s2). split.
    + rewrite <- (firstn_skipn i s2) at 1. rewrite Hs3, app_nil_r. reflexivity.
    + split; [exact LY|]. split; [exact LM|]. split; [exact LD|].
      split; [rewrite length_firstn; lia|].
      rewrite !app_assoc, forallb_app, <- !app_assoc, HYMD, HN. reflexivity.
  - intros (Y & M & D & N & -> & LY & LM & LD & LN & H).
    rewrite !forallb_app in H.
    apply andb_prop in H as [HY H]. apply andb_prop in H as [HM H].
    apply andb_prop in H as [HD HN].
    rewrite date_part_run by (rewrite ?forallb_app, ?HY, ?HM, ?HD; auto).
    rewrite mt_seq. unfold lit. rewrite lit_hit, mt_seq. cbn [mt].
    rewrite take_count_none_prefix by (exact HN || reflexivity).
    rewrite (proj2 (Nat.ltb_ge (length N) 1)) by lia.
    rewrite (first_some_down_hit _ 1 (length N) [(L "date", Y ++ L "-" ++ M ++ L "-" ++ D)]);
      [reflexivity|].
    apply date_capture.
Qed.

(** X13: the date text taken from such a log file name is its first ten
    characters, [YYYY-MM-DD]. *)
Theorem file_date_text_parts (Y M D N : str) :
  length Y = 4 -> length M = 2 -> length D = 2 -> 1 <= length N ->
  forallb is_digit (Y ++ M ++ D ++ N) = true ->
  file_date_text (Y ++ L "-" ++ M ++ L "-" ++ D ++ L "-" ++ N ++ L ".log.gz")
  = Y ++ L "-" ++ M ++ L "-" ++ D.
Proof.
  intros LY LM LD LN H. rewrite !forallb_app in H.
  apply andb_prop in H as [HY H]. apply andb_prop in H as [HM H].
  apply andb_prop in H as [HD HN].
  unfold file_date_text, re_fullmatch. rewrite filename_format, mt_seq, mt_group.
  rewrite (mt_fixed DATE_PART eq_refl).
  rewrite date_part_run by (rewrite ?forallb_app, ?HY, ?HM, ?HD; auto).
  rewrite mt_seq. unfold lit at 1. rewrite lit_hit, mt_seq. cbn [mt].
  rewrite take_count_none_prefix by (exact HN || reflexivity).
  rewrite (proj2 (Nat.ltb_ge (length N) 1)) by lia.
  rewrite (first_some_down_hit _ 1 (length N) [(L "date", Y ++ L "-" ++ M ++ L "-" ++ D)]).
  - cbn [group]. rewrite decide_True by reflexivity. reflexivity.
  - apply date_capture.
Qed.

Lemma file_date_text_parts_witness :
  file_date_text (L "2024" ++ L "-" ++ L "01" ++ L "-" ++ L "02" ++ L "-" ++ L "1" ++ L ".log.gz")
  = L "2024" ++ L "-" ++ L "01" ++ L "-" ++ L "02".
Proof. apply file_date_text_parts; [reflexivity | reflexivity | reflexivity | simpl; lia | reflexivity]. Defined.

(** X14: [sorted] as the run uses it returns a permutation of the file
    names, in non-decreasing order of Python's string comparison. *)
Theorem sort_permutation_sorted (l : list str) :
  Permutation (sort l) l /\ StronglySorted str_le (sort l).
Proof.
  split; [|apply sort_sorted].
  induction l as [|x l IH]; simpl; [reflexivity|].
  rewrite insert_sorted_perm, IH. reflexivity.
Qed.



(** X16: the CSV text of an event list extended by more events is the CSV
    text of the first list followed by the rows of the added events of that
    type. *)
Theorem csv_text_app (t : etype) (s1 s2 : list event) :
  csv_text t (s1 ++ s2)
  = csv_text t s1 ++ concat (map (fun e => writerow (row e)) (filter (fun e => type_of e = t) s2)).
Proof.
  unfold csv_text. rewrite filter_app, map_app, concat_app, app_assoc. reflexivity.
Qed.
